(** * GridBased_TradingBot: the grid builder and the fill-driven order book

    A shallow embedding of [logic.py]: [Config], [ExchangeClient.place_order],
    [ExchangeClient.cancel_all], [GridManager.build], [RunningBot.start],
    [RunningBot.on_fill], [RunningBot.stop] and the registry functions
    [start_bot], [stop_bot] and [get_bot_logs]; and of the handlers of
    [app.py] that act on the store of the bots and on the registry.

    Prices are Python floats, that is IEEE 754 binary64 numbers; they are
    embedded as Rocq's primitive [float], whose operations are the processor's.
    The three library functions the source applies to them are written out on
    the exact value [m * 2^e] of a float:
    - [py_round], the builtin [round(x, ndigits)] on a Python float
      (correctly rounded decimal, ties to even);
    - [np_round], [round(p, ndigits)] on a [numpy.float64]
      (multiply, [rint], divide);
    - [arange], [numpy.arange(start, stop, step)] on floats.

    The methods of [RunningBot] are statements over the state of the bot and
    the list of the calls that reached the exchange and the feed; they end
    with a result or with an exception.  The answers of the exchange and of
    the feed are inputs.  Left out: [time.sleep], the output of [print] and
    of the module logger (but for the two lines of [cancel_all]), the wait
    for the feed thread in [stop], the file behind the store of the bots,
    the widgets of the dashboard, and exceptions that are not instances of
    [Exception].  Each operation runs to its end before the next begins. *)

From Stdlib Require Import ZArith List Bool Floats String Lia.
Import ListNotations.

Set Warnings "-inexact-float".

#[local] Open Scope Z_scope.

(** ** Floats as exact values *)

Module Float.

(** [n / d] rounded to the nearest integer, ties to the even one
    ([0 <= n], [0 < d]). *)
Definition rne_div (n d : Z) : Z :=
  let q := n / d in
  match 2 * (n mod d) ?= d with
  | Lt => q
  | Gt => q + 1
  | Eq => if Z.even q then q else q + 1
  end.

(** The nearest integer to [k * m * 2^e], ties to even. *)
Definition scaled_rne (k : Z) (m : positive) (e : Z) : Z :=
  if 0 <=? e then k * Zpos m * 2 ^ e
  else rne_div (k * Zpos m) (2 ^ (- e)).

Definition signed_zero (s : bool) : float :=
  if s then PrimFloat.neg_zero else PrimFloat.zero.

(** The binary64 number nearest to the integer [z]. *)
Definition of_Z (z : Z) : float :=
  SF2Prim (binary_normalize prec emax z 0 false).

(** The binary64 number nearest to [(-1)^s * n / d]: what [strtod] returns
    on the decimal string of [n / 10^k]. *)
Definition of_ratio (s : bool) (n d : positive) : float :=
  SF2Prim (SFdiv prec emax (S754_finite s n 0) (S754_finite false d 0)).

(** C's [rint] in the default rounding mode: the nearest integral float,
    ties to even, the sign kept. *)
Definition rint (x : float) : float :=
  match Prim2SF x with
  | S754_finite s m e =>
      if 0 <=? e then x
      else match rne_div (Zpos m) (2 ^ (- e)) with
           | Zpos n => SF2Prim (binary_normalize prec emax
                                  (if s then Zneg n else Zpos n) 0 false)
           | _ => signed_zero s
           end
  | _ => x
  end.

(** C's [ceil], as an integer; [None] for a NaN or an infinity. *)
Definition ceil (x : float) : option Z :=
  match Prim2SF x with
  | S754_zero _ => Some 0
  | S754_finite s m e =>
      if 0 <=? e then Some ((if s then -1 else 1) * Zpos m * 2 ^ e)
      else let d := 2 ^ (- e) in
           Some (if s then - (Zpos m / d) else - ((- Zpos m) / d))
  | _ => None
  end.

(** C's conversion of a double to an integer, toward zero ([int(x)] in
    Python, which raises on a NaN or an infinity). *)
Definition trunc (x : float) : option Z :=
  match Prim2SF x with
  | S754_zero _ => Some 0
  | S754_finite s m e =>
      let a := if 0 <=? e then Zpos m * 2 ^ e else Zpos m / 2 ^ (- e) in
      Some (if s then - a else a)
  | _ => None
  end.

End Float.

(** ** The library functions of the source *)

(** [round(x, ndigits)] for a Python float [x] and [0 <= ndigits]: the
    decimal with [ndigits] fractional digits nearest to the exact value of
    [x] (ties to even), read back as a float.  A NaN or an infinity rounds
    to itself. *)
Definition py_round (x : float) (ndigits : nat) : float :=
  match Prim2SF x with
  | S754_finite s m e =>
      match Float.scaled_rne (10 ^ Z.of_nat ndigits) m e with
      | Zpos n => Float.of_ratio s n (Z.to_pos (10 ^ Z.of_nat ndigits))
      | _ => Float.signed_zero s
      end
  | _ => x
  end.

(** [round(p, ndigits)] for a [numpy.float64] [p] and [0 < ndigits]:
    numpy scales, rounds to an integer and scales back, each step in
    binary64. *)
Definition np_round (p : float) (ndigits : nat) : float :=
  let f := Float.of_Z (10 ^ Z.of_nat ndigits) in
  (Float.rint (p * f) / f)%float.

(** The largest array length, [NPY_MAX_INTP]. *)
Definition max_intp : Z := 2 ^ 63 - 1.

(** [numpy.arange(start, stop, step)] on Python floats.  The length is
    [ceil((stop - start) / step)]; the first two elements are [start] and
    [start + step], and element [i >= 2] is [start + i * delta] with
    [delta = (start + step) - start].  [None] stands for the exceptions:
    a zero step, a length that is a NaN or does not fit an index. *)
Definition arange (start stop step : float) : option (list float) :=
  if (step =? 0)%float then None
  else
    match Float.ceil ((stop - start) / step)%float with
    | None => None
    | Some len =>
        if len <=? 0 then Some []
        else if max_intp <? len then None
        else
          let next := (start + step)%float in
          let delta := (next - start)%float in
          Some (map (fun i => match i with
                              | O => start
                              | S O => next
                              | _ => (start + Float.of_Z (Z.of_nat i) * delta)%float
                              end)
                    (seq 0 (Z.to_nat len)))
    end.

(** [min(xs, key=key)]: the scan keeps an element until one with a smaller
    key comes, and returns the element kept at the end, here with its
    position.  [None] stands for the [ValueError] on an empty sequence. *)
Fixpoint min_scan {A} (key : A -> float) (best : nat * A) (i : nat) (xs : list A)
  : nat * A :=
  match xs with
  | [] => best
  | x :: xs' =>
      min_scan key (if (key x <? key (snd best))%float then (i, x) else best)
               (S i) xs'
  end.

Definition py_min {A} (key : A -> float) (xs : list A) : option (nat * A) :=
  match xs with
  | [] => None
  | x :: xs' => Some (min_scan key (O, x) 1%nat xs')
  end.

(** [xs.remove(v)] where [v] is the object at position [i] of [xs]: the
    first element that is [v] itself or compares equal to it goes. *)
Fixpoint list_remove (i : nat) (v : float) (xs : list float) {struct xs}
  : list float :=
  match xs with
  | [] => []
  | x :: xs' =>
      match i with
      | O => xs'
      | S i' => if (x =? v)%float then xs' else x :: list_remove i' v xs'
      end
  end.

(** ** Config *)

Record Config := {
  token : string;
  min_price : float;
  max_price : float;
  bin_step : float;
  order_size : float;
  api_url : string;
  secret_key : string;
}.

(** ** GridManager.build *)

Definition grid_levels (cfg : Config) : option (list float) :=
  match arange (min_price cfg)
               (max_price cfg + bin_step cfg / 2)%float
               (bin_step cfg) with
  | None => None
  | Some ps => Some (map (fun p => np_round p 4) ps)
  end.

(** The key of [min]: the distance to the rounded reference price. *)
Definition distance (last_close : float) (x : float) : float :=
  abs (x - py_round last_close 4)%float.

Definition closest_level (levels : list float) (last_close : float)
  : option (nat * float) :=
  py_min (distance last_close) levels.

(** [None] stands for an exception: one of [arange], or the [ValueError] of
    [min] on an empty list of levels. *)
Definition build (cfg : Config) (last_close : float)
  : option (list float * list float) :=
  match grid_levels cfg with
  | None => None
  | Some levels =>
      match closest_level levels last_close with
      | None => None
      | Some (i, closest) =>
          let levels' := list_remove i closest levels in
          Some (filter (fun p => (p <? closest)%float) levels',
                filter (fun p => (closest <? p)%float) levels')
      end
  end.

(** [sorted(xs)] on floats: a stable sort by [<]. *)
Fixpoint insert_sorted (x : float) (ys : list float) : list float :=
  match ys with
  | [] => [x]
  | y :: ys' => if (y <? x)%float then y :: insert_sorted x ys' else x :: ys
  end.

Definition sorted (xs : list float) : list float :=
  fold_right insert_sorted [] xs.

(** ** Python dictionaries

    A [dict] keeps its entries in insertion order, at most one per key; keys
    are compared with [==], given here as [eqb].  On floats [==] identifies
    [0.0] and [-0.0] and separates a NaN from every key, so the keys cannot be
    compared with Leibniz equality. *)

Section Dict.

Context {K V : Type} (eqb : K -> K -> bool).

Fixpoint dict_get (k : K) (d : list (K * V)) : option V :=
  match d with
  | [] => None
  | (k', v) :: d' => if eqb k' k then Some v else dict_get k d'
  end.

(** [del d[k]], when [k] is a key. *)
Definition dict_del (k : K) (d : list (K * V)) : list (K * V) :=
  filter (fun e => negb (eqb (fst e) k)) d.

(** [d.pop(k, None)]. *)
Definition dict_pop (k : K) (d : list (K * V)) : option V * list (K * V) :=
  (dict_get k d, dict_del k d).

(** [d[k] = v]: the entry of an equal key keeps its place and its key. *)
Fixpoint dict_set (k : K) (v : V) (d : list (K * V)) : list (K * V) :=
  match d with
  | [] => [(k, v)]
  | (k', v') :: d' =>
      if eqb k' k then (k', v) :: d' else (k', v') :: dict_set k v d'
  end.

(** No two entries have equal keys. *)
Fixpoint dict_wf (d : list (K * V)) : Prop :=
  match d with
  | [] => True
  | (k, _) :: d' => dict_get k d' = None /\ dict_wf d'
  end.

End Dict.

(** The order book, [RunningBot.active_orders]: rounded price to side. *)
Definition OrderBook := list (float * string).

Definition book_get := @dict_get float string PrimFloat.eqb.
Definition book_del := @dict_del float string PrimFloat.eqb.
Definition book_pop := @dict_pop float string PrimFloat.eqb.
Definition book_set := @dict_set float string PrimFloat.eqb.

(** ** Strings *)

Definition lower_ascii (c : Ascii.ascii) : Ascii.ascii :=
  let n := Ascii.nat_of_ascii c in
  if (65 <=? n)%nat && (n <=? 90)%nat then Ascii.ascii_of_nat (n + 32) else c.

(** [s.lower()], on ASCII text. *)
Fixpoint lower (s : string) : string :=
  match s with
  | EmptyString => EmptyString
  | String c s' => String (lower_ascii c) (lower s')
  end.

(** ** The collaborators

    The exchange gateway and the fill feed are outside the repository.  What
    they answer is an input of every operation: a value of [Gateway] fixes
    the outcome of each call made during one operation, and the calls that
    reach them are recorded on the [wire]. *)

(** The exceptions raised in the model; all are instances of [Exception]. *)
Inductive exn :=
| AttributeError            (* a missing attribute *)
| ValueError                (* [int] of a NaN, [min] of nothing, [arange] *)
| OverflowError             (* [int] of an infinity *)
| TypeError                 (* [Cloid] refuses the identifier *)
| GatewayError.             (* raised inside a collaborator *)

(** The answer of [exchange.order]. *)
Inductive reply :=
| Status_ok                 (* a response whose status is "ok" *)
| Status_other              (* any other response *)
| Order_raises.             (* an exception *)

Record Gateway := {
  user_state_ok : bool;         (* [cancel_all] returns (else it raises) *)
  candles : option float;       (* [get_close_price] returns this price *)
  cloid_ok : Z -> bool;         (* [Cloid.from_int] accepts the integer *)
  order_reply : nat -> reply;   (* the answer to the request sent after
                                   [n] earlier calls on the wire *)
  monitor_ok : bool;            (* [HyperliquidMonitor(...)] returns *)
  thread_ok : bool;             (* [Thread.start()] returns *)
  monitor_stop_ok : bool;       (* [monitor.stop()] returns *)
  connect_ok : bool;            (* [ExchangeClient(config)] returns *)
}.

Inductive call :=
| Cancel_all
| Candles_snapshot
| Order (market : string) (is_buy : bool) (size px : float) (cloid : Z)
| Monitor_start
| Monitor_stop.

(** ** RunningBot *)

(** The entries of [log_queue] ([RunningBot.log]). *)
Inductive message :=
| Bot_is_already_running
| Cancelling_existing_orders
| Last_close_price (p : float)
| Bot_started_successfully
| Error_starting_bot (e : exn)
| Fill_detected (k : float)
| No_active_order_found (k : float)
| Processing_fill (side : string) (k : float)
| Placing_order (side : string) (p : float)
| Price_out_of_range (p : float)
| Fill_processing_error (e : exn)
| Stopping_bot
| Bot_stopped.

Record RunningBot := {
  config : Config;
  active_orders : OrderBook;
  monitor : bool;               (* [self.monitor] is set *)
  thread : bool;                (* [self.thread] is set *)
  running : bool;
  log_queue : list message;
}.

(** [RunningBot(config)]. *)
Definition new_bot (cfg : Config) : RunningBot :=
  {| config := cfg; active_orders := []; monitor := false; thread := false;
     running := false; log_queue := [] |}.

(** A bot and the calls that have reached its collaborators. *)
Record World := {
  bot : RunningBot;
  wire : list call;
}.

Definition with_active_orders (b : OrderBook) (w : World) : World :=
  {| bot := {| config := config (bot w); active_orders := b;
               monitor := monitor (bot w); thread := thread (bot w);
               running := running (bot w); log_queue := log_queue (bot w) |};
     wire := wire w |}.

Definition with_monitor (m : bool) (w : World) : World :=
  {| bot := {| config := config (bot w); active_orders := active_orders (bot w);
               monitor := m; thread := thread (bot w);
               running := running (bot w); log_queue := log_queue (bot w) |};
     wire := wire w |}.

Definition with_thread (t : bool) (w : World) : World :=
  {| bot := {| config := config (bot w); active_orders := active_orders (bot w);
               monitor := monitor (bot w); thread := t;
               running := running (bot w); log_queue := log_queue (bot w) |};
     wire := wire w |}.

Definition with_running (r : bool) (w : World) : World :=
  {| bot := {| config := config (bot w); active_orders := active_orders (bot w);
               monitor := monitor (bot w); thread := thread (bot w);
               running := r; log_queue := log_queue (bot w) |};
     wire := wire w |}.

Definition with_log (m : message) (w : World) : World :=
  {| bot := {| config := config (bot w); active_orders := active_orders (bot w);
               monitor := monitor (bot w); thread := thread (bot w);
               running := running (bot w);
               log_queue := log_queue (bot w) ++ [m] |};
     wire := wire w |}.

Definition with_call (c : call) (w : World) : World :=
  {| bot := bot w; wire := wire w ++ [c] |}.

(** *** Statements: state and exceptions *)

Inductive outcome (A : Type) :=
| Return (a : A)
| Raise (e : exn).
Arguments Return {A} a.
Arguments Raise {A} e.

Definition M (A : Type) : Type := World -> outcome A * World.

Definition ret {A} (a : A) : M A := fun w => (Return a, w).

Definition raise {A} (e : exn) : M A := fun w => (Raise e, w).

Definition bind {A B} (c : M A) (k : A -> M B) : M B :=
  fun w => match c w with
           | (Return a, w') => k a w'
           | (Raise e, w') => (Raise e, w')
           end.

Notation "x <- c ;; k" := (bind c (fun x => k))
  (at level 61, c at next level, right associativity).
Notation "c ;; k" := (bind c (fun _ => k))
  (at level 61, right associativity).

(** [try: c  except Exception as e: handler(e)]. *)
Definition try_except {A} (c : M A) (handler : exn -> M A) : M A :=
  fun w => match c w with
           | (Return a, w') => (Return a, w')
           | (Raise e, w') => handler e w'
           end.

Definition get {A} (f : World -> A) : M A := fun w => (Return (f w), w).

Definition update (f : World -> World) : M unit := fun w => (Return tt, f w).

(** [for x in xs: body(x)]. *)
Fixpoint for_each {A} (xs : list A) (body : A -> M unit) : M unit :=
  match xs with
  | [] => ret tt
  | x :: xs' => body x ;; for_each xs' body
  end.

(** [self.log(message)]. *)
Definition log (m : message) : M unit := update (with_log m).

(** [int(x)]. *)
Definition int (x : float) : M Z :=
  match Float.trunc x with
  | Some n => ret n
  | None => raise (if is_nan x then ValueError else OverflowError)
  end.

(** *** ExchangeClient *)

(** [ExchangeClient.get_close_price]. *)
Definition get_close_price (gw : Gateway) : M float :=
  update (with_call Candles_snapshot) ;;
  match candles gw with
  | Some p => ret p
  | None => raise GatewayError
  end.

(** [ExchangeClient.place_order(price, side, active_orders)], where
    [active_orders] is the bot's own dictionary at every call of the source.
    The client identifier is built before the [try]; the request and the
    reading of its answer are inside. *)
Definition place_order (gw : Gateway) (price : float) (side : string) : M bool :=
  let is_buy := String.eqb (lower side) "buy" in
  n <- int (price * 10000)%float ;;
  let cloid := n + (if is_buy then 1 else 2) in
  (if cloid_ok gw cloid then ret tt else raise TypeError) ;;
  let price_key := py_round price 4 in
  cfg <- get (fun w => config (bot w)) ;;
  sent <- get (fun w => List.length (wire w)) ;;
  update (with_call (Order (token cfg) is_buy (order_size cfg) price cloid)) ;;
  match order_reply gw sent with
  | Status_ok =>
      update (fun w => with_active_orders
                         (book_set price_key (lower side) (active_orders (bot w))) w) ;;
      ret true
  | Status_other => ret false
  | Order_raises => ret false
  end.

(** [ExchangeClient.cancel_all]: the query of the open orders is not guarded,
    each cancellation is. *)
Definition cancel_all (gw : Gateway) : M unit :=
  update (with_call Cancel_all) ;;
  if user_state_ok gw then ret tt else raise GatewayError.

(** *** RunningBot.start

    [main_thread] tells whether the caller is the main thread: there the
    method first installs [self.handle_shutdown] as the handler of SIGINT, an
    attribute that the class does not define. *)
Definition start_steps (gw : Gateway) : M bool :=
  log Cancelling_existing_orders ;;
  cancel_all gw ;;
  last_close <- get_close_price gw ;;
  log (Last_close_price last_close) ;;
  cfg <- get (fun w => config (bot w)) ;;
  match build cfg last_close with
  | None => raise ValueError
  | Some (buys, sells) =>
      for_each (sorted buys) (fun p => place_order gw p "buy" ;; ret tt) ;;
      for_each (sorted sells) (fun p => place_order gw p "sell" ;; ret tt) ;;
      (if monitor_ok gw then ret tt else raise GatewayError) ;;
      update (with_monitor true) ;;
      update (with_thread true) ;;
      (if thread_ok gw then ret tt else raise GatewayError) ;;
      update (with_call Monitor_start) ;;
      update (with_running true) ;;
      log Bot_started_successfully ;;
      ret true
  end.

Definition start (main_thread : bool) (gw : Gateway) : M bool :=
  (if main_thread then raise AttributeError else ret tt) ;;
  r <- get (fun w => running (bot w)) ;;
  if r then log Bot_is_already_running ;; ret false
  else try_except (start_steps gw)
                  (fun e => log (Error_starting_bot e) ;; ret false).

(** *** RunningBot.on_fill *)

(** The fields of a fill notification that [on_fill] reads. *)
Record Trade := {
  coin : string;
  trade_type : string;
  price : float;
}.

(** The replacement of a filled order: one step up as a sell after a buy,
    one step down as a buy after anything else. *)
Definition replacement (cfg : Config) (price_key : float) (side : string)
  : float * string :=
  if String.eqb side "buy" then ((price_key + bin_step cfg)%float, "sell"%string)
  else ((price_key - bin_step cfg)%float, "buy"%string).

Definition in_range (cfg : Config) (p : float) : bool :=
  (min_price cfg <=? p)%float && (p <=? max_price cfg)%float.

Definition on_fill_steps (gw : Gateway) (trade : Trade) : M unit :=
  cfg <- get (fun w => config (bot w)) ;;
  if negb (String.eqb (coin trade) (token cfg))
     || negb (String.eqb (trade_type trade) "FILL")
  then ret tt
  else
    let price_key := py_round (price trade) 4 in
    log (Fill_detected price_key) ;;
    book <- get (fun w => active_orders (bot w)) ;;
    let (side, book') := book_pop price_key book in
    update (with_active_orders book') ;;
    match side with
    | None => log (No_active_order_found price_key)
    | Some EmptyString => log (No_active_order_found price_key)
    | Some side =>
        log (Processing_fill side price_key) ;;
        let (new_price, new_side) := replacement cfg price_key side in
        log (Placing_order new_side new_price) ;;
        if in_range cfg new_price
        then place_order gw new_price new_side ;; ret tt
        else log (Price_out_of_range new_price)
    end.

Definition on_fill (gw : Gateway) (trade : Trade) : M unit :=
  try_except (on_fill_steps gw trade)
             (fun e => log (Fill_processing_error e)).

(** *** RunningBot.stop

    No [try] here: an exception of the feed or of [cancel_all] leaves [stop]
    with [running] still set. *)

Definition stop (gw : Gateway) : M unit :=
  r <- get (fun w => running (bot w)) ;;
  if negb r then ret tt
  else
    log Stopping_bot ;;
    m <- get (fun w => monitor (bot w)) ;;
    (if m
     then update (with_call Monitor_stop) ;;
          if monitor_stop_ok gw then ret tt else raise GatewayError
     else ret tt) ;;
    cancel_all gw ;;
    update (with_running false) ;;
    log Bot_stopped.

(** ** The registry: [running_bots], [start_bot], [stop_bot]

    [RunningBot] objects are shared by reference: the registry holds the
    address of a bot in the [heap] of all the bots constructed so far, and a
    bot that left the registry is still on the heap, with its feed. *)

Record Process := {
  heap : list RunningBot;
  running_bots : list (string * nat);
  net : list call;
}.

Definition registry_get := @dict_get string nat String.eqb.
Definition registry_set := @dict_set string nat String.eqb.
Definition registry_del := @dict_del string nat String.eqb.

(** The heap with the object at address [i] replaced. *)
Fixpoint store {A} (i : nat) (a : A) (xs : list A) {struct xs} : list A :=
  match xs, i with
  | [], _ => []
  | _ :: xs', O => a :: xs'
  | x :: xs', S i' => x :: store i' a xs'
  end.

(** [start_bot(bot_id, config_dict)]; the dictionary of the dashboard holds
    the fields of [Config] under other names.  Every exception is turned into
    [False]. *)
Definition start_bot (main_thread : bool) (gw : Gateway)
    (bot_id : string) (config_dict : Config) (p : Process) : bool * Process :=
  if negb (connect_ok gw) then (false, p)
  else
    let (started, w) :=
      start main_thread gw {| bot := new_bot config_dict; wire := net p |} in
    let p' := {| heap := heap p ++ [bot w];
                 running_bots := running_bots p;
                 net := wire w |} in
    match started with
    | Return true =>
        (true, {| heap := heap p';
                  running_bots :=
                    registry_set bot_id (List.length (heap p)) (running_bots p);
                  net := net p' |})
    | Return false => (false, p')
    | Raise _ => (false, p')
    end.

(** [stop_bot(bot_id)]: an exception of [stop] leaves the entry in place. *)
Definition stop_bot (gw : Gateway) (bot_id : string) (p : Process)
  : outcome bool * Process :=
  match registry_get bot_id (running_bots p) with
  | None => (Return false, p)
  | Some a =>
      match nth_error (heap p) a with
      | None => (Return false, p)
      | Some b =>
          let (r, w) := stop gw {| bot := b; wire := net p |} in
          match r with
          | Return _ =>
              (Return true,
               {| heap := store a (bot w) (heap p);
                  running_bots := registry_del bot_id (running_bots p);
                  net := wire w |})
          | Raise e =>
              (Raise e,
               {| heap := store a (bot w) (heap p);
                  running_bots := running_bots p;
                  net := wire w |})
          end
      end
  end.

(** ** Predicates of the statements below *)

(** No element of [xs] has a key below that of [b]. *)
Definition least {A} (key : A -> float) (b : A) (xs : list A) : Prop :=
  forall x, In x xs -> (key x <? key b)%float = false.

(** Every element of [xs] before position [i] has a key above that of [b],
    unless its key is a NaN. *)
Definition first_least {A} (key : A -> float) (b : A) (i : nat) (xs : list A)
  : Prop :=
  forall j x, (j < i)%nat -> nth_error xs j = Some x ->
    (key b <? key x)%float = true \/ (key x =? key x)%float = false.

(** The float of the decimal [(-1)^s * n / 10^4]. *)
Definition decimal4 (s : bool) (n : N) : float :=
  match n with
  | N0 => Float.signed_zero s
  | Npos p => Float.of_ratio s p 10000
  end.

(** A price rounded to four fractional digits: the float of a decimal that
    has four of them. *)
Definition rounded4 (k : float) : Prop := exists s n, k = decimal4 s n.

(** Neither a NaN nor an infinity. *)
Definition finite (x : float) : Prop :=
  match Prim2SF x with
  | S754_zero _ | S754_finite _ _ _ => True
  | _ => False
  end.

(** The invariant of the order book: rounded keys, sides in lower case. *)
Definition book_inv (b : OrderBook) : Prop :=
  Forall (fun e => rounded4 (fst e)
                   /\ (snd e = "buy"%string \/ snd e = "sell"%string)) b.

(** [place_order] gets past the client identifier and the exchange answers
    "ok": the one case in which it writes the order book. *)
Definition accepted (gw : Gateway) (w : World) (p : float) (is_buy : bool) : bool :=
  match Float.trunc (p * 10000)%float with
  | Some n =>
      cloid_ok gw (n + (if is_buy then 1 else 2))
      && match order_reply gw (List.length (wire w)) with
         | Status_ok => true
         | _ => false
         end
  | None => false
  end.

(** The fill is a terminal fill of the configured market. *)
Definition relevant (cfg : Config) (trade : Trade) : bool :=
  String.eqb (coin trade) (token cfg) && String.eqb (trade_type trade) "FILL".

(** The statement that the fill of a tracked buy at [P] puts a sell at the
    level of [P + bin_step] exactly when [P + bin_step <= max_price], and
    the fill of a tracked sell a buy at the level of [P - bin_step] exactly
    when [min_price <= P - bin_step], whatever the exchange answers. *)
Definition replaced_iff_in_range : Prop :=
  forall (gw : Gateway) (w : World) (trade : Trade),
    let cfg := config (bot w) in
    let P := py_round (price trade) 4 in
    let book' := active_orders (bot (snd (on_fill gw trade w))) in
    relevant cfg trade = true ->
    (book_get P (active_orders (bot w)) = Some "buy"%string ->
       (book_get (py_round (P + bin_step cfg) 4) book' = Some "sell"%string
        <-> (P + bin_step cfg <=? max_price cfg)%float = true))
    /\ (book_get P (active_orders (bot w)) = Some "sell"%string ->
       (book_get (py_round (P - bin_step cfg) 4) book' = Some "buy"%string
        <-> (min_price cfg <=? P - bin_step cfg)%float = true)).

(** The statement that a second delivery of a fill changes nothing. *)
Definition redelivery_is_idle : Prop :=
  forall (gw1 gw2 : Gateway) (w : World) (trade : Trade),
    let w1 := snd (on_fill gw1 trade w) in
    active_orders (bot (snd (on_fill gw2 trade w1))) = active_orders (bot w1).

(** The world once the fill is logged and its level popped. *)
Definition popped (k : float) (w : World) : World :=
  with_active_orders (book_del k (active_orders (bot w)))
                     (with_log (Fill_detected k) w).

(** The world when the replacement is about to be placed or skipped. *)
Definition announced (k : float) (side : string) (w : World) : World :=
  let (new_price, new_side) := replacement (config (bot w)) k side in
  with_log (Placing_order new_side new_price)
           (with_log (Processing_fill side k) (popped k w)).

(** The startup ran to its end: every call of a collaborator returned and
    the grid could be built. *)
Definition startup_completed (gw : Gateway) (cfg : Config) : Prop :=
  user_state_ok gw = true
  /\ (exists p, candles gw = Some p /\ build cfg p <> None)
  /\ monitor_ok gw = true
  /\ thread_ok gw = true.

(** A stopped bot of configuration [cfg]. *)
Definition stopped_as (cfg : Config) (w : World) : Prop :=
  running (bot w) = false /\ config (bot w) = cfg.

(** The registry holds at most one bot per identifier. *)
Definition registry_wf (p : Process) : Prop :=
  dict_wf String.eqb (running_bots p).

(** From a world that satisfies [P], the statement [c] ends, with a result or
    an exception, in a world that satisfies [Q]. *)
Definition hoare {A} (P : World -> Prop) (c : M A)
    (Q : outcome A -> World -> Prop) : Prop :=
  forall w, P w -> Q (fst (c w)) (snd (c w)).

(** [J] holds after [c] if it held before, however [c] ends. *)
Definition preserves {A} (J : World -> Prop) (c : M A) : Prop :=
  hoare J c (fun _ => J).

(** A property of the order book alone, as a property of the world. *)
Definition on_book (I : OrderBook -> Prop) (w : World) : Prop :=
  I (active_orders (bot w)).

(** A configuration as the specification admits it. *)
Definition valid_config (cfg : Config) : bool :=
  (min_price cfg <? max_price cfg)%float
  && (0 <? bin_step cfg)%float
  && (bin_step cfg <? max_price cfg - min_price cfg)%float.

(** ** Sample data *)

Definition mk_config (lo hi step : float) : Config :=
  {| token := "ETH"; min_price := lo; max_price := hi; bin_step := step;
     order_size := 1; api_url := "https://api.hyperliquid.xyz";
     secret_key := "0x01" |}.

(** A gateway that answers every call, with [status] to each order. *)
Definition gateway (status : reply) (close : float) : Gateway :=
  {| user_state_ok := true; candles := Some close; cloid_ok := fun _ => true;
     order_reply := fun _ => status; monitor_ok := true; thread_ok := true;
     monitor_stop_ok := true; connect_ok := true |}.

Definition tracking (cfg : Config) (book : OrderBook) : World :=
  {| bot := {| config := cfg; active_orders := book; monitor := true;
               thread := true; running := true; log_queue := [] |};
     wire := [] |}.

Definition fill (p : float) : Trade :=
  {| coin := "ETH"; trade_type := "FILL"; price := p |}.

(** ** The rest of [logic.py] and the handlers of [app.py] *)

(** The request that [place_order] sends: the client identifier is
    [int(price * 10000)] plus 1 for a buy and 2 for a sell. *)
Definition order_of (cfg : Config) (is_buy : bool) (p : float) : call :=
  Order (token cfg) is_buy (order_size cfg) p
        (match Float.trunc (p * 10000)%float with
         | Some n => n + (if is_buy then 1 else 2)
         | None => 0
         end).

(** *** ExchangeClient.cancel_all, order by order

    The answers of the exchange during one call: the state of the account,
    whether [Cloid.from_str] accepts an identifier and whether
    [cancel_by_cloid] returns.  The statement [cancel_all] above keeps of
    them whether the call returns, [user_state_ok]. *)
Record Desk := {
  user_state : option (option (list (option string)));
                                  (* [None]: the query raises; [Some None]:
                                     the state has no "orders"; else the
                                     "clientOrderId" of each order, if any *)
  from_str_ok : string -> bool;
  cancel_ok : string -> bool;
}.

(** The lines of the module logger. *)
Inductive logger_line :=
| Cancelled_order (cloid : string)
| Failed_to_cancel (cloid : string).

(** The loop: an order without identifier is skipped, [Cloid.from_str] is not
    guarded, the cancellation is.  The result carries the identifiers sent
    to [cancel_by_cloid] and the lines logged. *)
Fixpoint cancel_loop (d : Desk) (orders : list (option string))
  : outcome unit * list string * list logger_line :=
  match orders with
  | [] => (Return tt, [], [])
  | None :: rest => cancel_loop d rest
  | Some EmptyString :: rest => cancel_loop d rest
  | Some cloid :: rest =>
      if from_str_ok d cloid
      then let '(r, sent, lines) := cancel_loop d rest in
           (r, cloid :: sent,
            (if cancel_ok d cloid then Cancelled_order cloid
             else Failed_to_cancel cloid) :: lines)
      else (Raise TypeError, [], [])
  end.

Definition cancel_all_orders (d : Desk)
  : outcome unit * list string * list logger_line :=
  match user_state d with
  | None => (Raise GatewayError, [], [])
  | Some None => (Return tt, [], [])
  | Some (Some orders) => cancel_loop d orders
  end.

(** The identifiers that [cancel_all] has to cancel. *)
Fixpoint identifiers (orders : list (option string)) : list string :=
  match orders with
  | [] => []
  | None :: rest => identifiers rest
  | Some EmptyString :: rest => identifiers rest
  | Some cloid :: rest => cloid :: identifiers rest
  end.

(** *** get_bot_logs *)

(** The bot once its queue is read to the end. *)
Definition drained (b : RunningBot) : RunningBot :=
  {| config := config b; active_orders := active_orders b;
     monitor := monitor b; thread := thread b; running := running b;
     log_queue := [] |}.

(** [get_bot_logs(bot_id)]. *)
Definition get_bot_logs (bot_id : string) (p : Process)
  : list message * Process :=
  match registry_get bot_id (running_bots p) with
  | None => ([], p)
  | Some a =>
      match nth_error (heap p) a with
      | None => ([], p)
      | Some b =>
          (log_queue b,
           {| heap := store a (drained b) (heap p);
              running_bots := running_bots p;
              net := net p |})
      end
  end.

(** The feed of the bot at address [a] delivers a fill: [on_fill] runs on
    that bot, registered or not. *)
Definition deliver (gw : Gateway) (a : nat) (trade : Trade) (p : Process)
  : Process :=
  match nth_error (heap p) a with
  | None => p
  | Some b =>
      let w := snd (on_fill gw trade {| bot := b; wire := net p |}) in
      {| heap := store a (bot w) (heap p);
         running_bots := running_bots p;
         net := wire w |}
  end.

(** Every registered bot is on the heap and running, and no two identifiers
    name the same bot. *)
Definition registry_sound (p : Process) : Prop :=
  NoDup (map snd (running_bots p))
  /\ forall id a, In (id, a) (running_bots p) ->
       exists b, nth_error (heap p) a = Some b /\ running b = true.

(** [Config(token, min_price, max_price, bin_step, order_size, api_url,
    secret_key)]. *)
Definition Config_init (tok : string) (lo hi step size : float)
    (url key : string) : Config :=
  {| token := tok; min_price := lo; max_price := hi; bin_step := step;
     order_size := size; api_url := url; secret_key := key |}.

(** [constants.MAINNET_API_URL]. *)
Definition MAINNET_API_URL : string := "https://api.hyperliquid.xyz".

Definition upper_ascii (c : Ascii.ascii) : Ascii.ascii :=
  let n := Ascii.nat_of_ascii c in
  if (97 <=? n)%nat && (n <=? 122)%nat then Ascii.ascii_of_nat (n - 32) else c.

(** [s.upper()], on ASCII text. *)
Fixpoint upper (s : string) : string :=
  match s with
  | EmptyString => EmptyString
  | String c s' => String (upper_ascii c) (upper s')
  end.

(** [not s], for a string. *)
Definition blank (s : string) : bool :=
  match s with EmptyString => true | _ => false end.

(** *** The dashboard: the handlers of [app.py] that touch the store of the
    bots and the registry *)

Module App.

(** An entry of [bots.json], with the keys of the dictionary. *)
Record Bot := {
  bot_name : string;
  token_symbol : string;
  wallet_address : string;
  private_key : string;
  min_price : float;
  max_price : float;
  bin_step : float;
  order_size : float;
}.

(** [st.session_state.bots]: name to entry. *)
Definition Store := list (string * Bot).

Definition store_get := @dict_get string Bot String.eqb.
Definition store_set := @dict_set string Bot String.eqb.
Definition store_del := @dict_del string Bot String.eqb.

(** The [Config] that [start_bot] builds from an entry. *)
Definition config_of (b : Bot) : Config :=
  Config_init (token_symbol b) (min_price b) (max_price b) (bin_step b)
              (order_size b) MAINNET_API_URL (private_key b).

(** The values read from the form: the token symbol goes through
    [upper]. *)
Definition new_bot (inputs : Bot) : Bot :=
  {| bot_name := bot_name inputs;
     token_symbol := upper (token_symbol inputs);
     wallet_address := wallet_address inputs;
     private_key := private_key inputs;
     min_price := min_price inputs; max_price := max_price inputs;
     bin_step := bin_step inputs; order_size := order_size inputs |}.

Inductive submitted :=
| Key_error                     (* the entry under edit is not in the store *)
| Missing_field                 (* "Please fill all required fields" *)
| Bad_range                     (* "Maximum price must be greater ..." *)
| Saved (bots : Store).

(** The page "Create Bot" when "Save Bot" is pressed; [edit_bot] is the name
    under edit, if any.  In edit mode the page reads the entry of that name
    before it draws the form. *)
Definition submit (edit_bot : option string) (inputs : Bot) (bots : Store)
  : submitted :=
  match edit_bot, match edit_bot with
                  | Some old_name => store_get old_name bots
                  | None => None
                  end with
  | Some _, None => Key_error
  | _, _ =>
      let b := new_bot inputs in
      if blank (bot_name b) || blank (token_symbol b)
         || blank (wallet_address b) || blank (private_key b)
      then Missing_field
      else if (max_price b <=? min_price b)%float then Bad_range
      else
        let bots1 :=
          match edit_bot with
          | Some old_name =>
              if negb (String.eqb old_name (bot_name b))
                 && match store_get old_name bots with
                    | Some _ => true
                    | None => false
                    end
              then store_del old_name bots
              else bots
          | None => bots
          end in
        Saved (store_set (bot_name b) b bots1)
  end.

(** [bot_name in running_bots]: what the dashboard shows as RUNNING. *)
Definition shown_running (name : string) (p : Process) : bool :=
  match registry_get name (running_bots p) with
  | Some _ => true
  | None => false
  end.

(** The handler of "Start", a button that exists for a bot of the store
    that is not shown as running; [None] when there is no such button. *)
Definition click_start (main_thread : bool) (gw : Gateway) (name : string)
    (bots : Store) (p : Process) : option (bool * Process) :=
  match store_get name bots with
  | None => None
  | Some b =>
      if shown_running name p then None
      else Some (start_bot main_thread gw name (config_of b) p)
  end.

(** The handler of "Delete", a button that exists for a bot of the store:
    the bot is stopped if it is shown as running, then its entry goes.  An
    exception of [stop_bot] leaves the handler before the entry is
    deleted. *)
Definition click_delete (gw : Gateway) (name : string) (bots : Store)
    (p : Process) : option (outcome Store * Process) :=
  match store_get name bots with
  | None => None
  | Some _ =>
      let (r, p') := if shown_running name p then stop_bot gw name p
                     else (Return false, p) in
      match r with
      | Return _ => Some (Return (store_del name bots), p')
      | Raise e => Some (Raise e, p')
      end
  end.




End App.

(** * Properties *)

(** ** The order of floats

    [<] and [==] on binary64, through their specification on [spec_float]:
    a strict order and an equivalence that leave out the NaN. *)

Module FloatOrder.

#[local] Ltac by_comparison :=
  repeat match goal with
    | |- context [Pos.compare_cont Eq ?a ?b] =>
        change (Pos.compare_cont Eq a b) with (Pos.compare a b)
    | H : context [Pos.compare_cont Eq ?a ?b] |- _ =>
        change (Pos.compare_cont Eq a b) with (Pos.compare a b) in H
    | |- context [Z.compare ?a ?b] => destruct (Z.compare_spec a b); subst
    | H : context [Z.compare ?a ?b] |- _ => destruct (Z.compare_spec a b); subst
    | |- context [Pos.compare ?a ?b] => destruct (Pos.compare_spec a b); subst
    | H : context [Pos.compare ?a ?b] |- _ => destruct (Pos.compare_spec a b); subst
    end;
  simpl in *; try discriminate; try reflexivity; auto; try lia.

#[local] Ltac by_cases3 x y z :=
  destruct x as [[|]|[|]| |[|] ? ?], y as [[|]|[|]| |[|] ? ?],
           z as [[|]|[|]| |[|] ? ?];
  simpl; try discriminate; try reflexivity; intros; by_comparison.

#[local] Ltac by_cases2 x y :=
  destruct x as [[|]|[|]| |[|] ? ?], y as [[|]|[|]| |[|] ? ?];
  simpl; try discriminate; try reflexivity; intros; by_comparison.

Lemma SFltb_trans x y z :
  SFltb x y = true -> SFltb y z = true -> SFltb x z = true.
Proof. unfold SFltb. by_cases3 x y z. Qed.

Lemma SFltb_irrefl x : SFltb x x = false.
Proof.
  unfold SFltb. destruct x as [[|]|[|]| |[|] m e]; simpl; try reflexivity;
    rewrite Z.compare_refl;
    change (Pos.compare_cont Eq m m) with (Pos.compare m m);
    rewrite Pos.compare_refl; reflexivity.
Qed.

Lemma SFltb_defined x y :
  SFltb x y = true -> SFeqb x x = true /\ SFeqb y y = true.
Proof.
  unfold SFltb, SFeqb. split; revert H; by_cases2 x y;
    rewrite ?Pos.compare_refl; reflexivity.
Qed.

Lemma SFtotal x y :
  SFeqb x x = true -> SFeqb y y = true ->
  SFltb x y = true \/ SFeqb x y = true \/ SFltb y x = true.
Proof. unfold SFltb, SFeqb. by_cases2 x y. Qed.

Lemma SFeqb_ltb x y z :
  SFeqb x y = true -> SFltb y z = true -> SFltb x z = true.
Proof. unfold SFltb, SFeqb. by_cases3 x y z. Qed.

Lemma SFltb_eqb x y z :
  SFltb x y = true -> SFeqb y z = true -> SFltb x z = true.
Proof. unfold SFltb, SFeqb. by_cases3 x y z. Qed.

Lemma SFeqb_sym x y : SFeqb x y = true -> SFeqb y x = true.
Proof. unfold SFeqb. by_cases2 x y. Qed.

Lemma SFeqb_trans x y z :
  SFeqb x y = true -> SFeqb y z = true -> SFeqb x z = true.
Proof. unfold SFeqb. by_cases3 x y z. Qed.

Lemma SFeqb_not_ltb x y : SFeqb x y = true -> SFltb x y = false.
Proof. unfold SFltb, SFeqb. destruct (SFcompare x y) as [[| |]|]; easy. Qed.

#[local] Open Scope float_scope.

Lemma ltb_irrefl x : (x <? x) = false.
Proof. rewrite FloatAxioms.ltb_spec. apply SFltb_irrefl. Qed.

Lemma ltb_trans x y z : (x <? y) = true -> (y <? z) = true -> (x <? z) = true.
Proof. rewrite !FloatAxioms.ltb_spec. apply SFltb_trans. Qed.

Lemma ltb_asym x y : (x <? y) = true -> (y <? x) = false.
Proof.
  intros H. destruct (y <? x) eqn:E; [|reflexivity].
  pose proof (ltb_trans _ _ _ H E) as T. now rewrite ltb_irrefl in T.
Qed.

Lemma ltb_defined x y : (x <? y) = true -> (x =? x) = true /\ (y =? y) = true.
Proof. rewrite FloatAxioms.ltb_spec, !FloatAxioms.eqb_spec. apply SFltb_defined. Qed.

Lemma total x y :
  (x =? x) = true -> (y =? y) = true ->
  (x <? y) = true \/ (x =? y) = true \/ (y <? x) = true.
Proof. rewrite !FloatAxioms.ltb_spec, !FloatAxioms.eqb_spec. apply SFtotal. Qed.

Lemma eqb_ltb x y z : (x =? y) = true -> (y <? z) = true -> (x <? z) = true.
Proof. rewrite !FloatAxioms.ltb_spec, FloatAxioms.eqb_spec. apply SFeqb_ltb. Qed.

Lemma ltb_eqb x y z : (x <? y) = true -> (y =? z) = true -> (x <? z) = true.
Proof. rewrite !FloatAxioms.ltb_spec, FloatAxioms.eqb_spec. apply SFltb_eqb. Qed.

Lemma eqb_sym x y : (x =? y) = true -> (y =? x) = true.
Proof. rewrite !FloatAxioms.eqb_spec. apply SFeqb_sym. Qed.

Lemma eqb_trans x y z : (x =? y) = true -> (y =? z) = true -> (x =? z) = true.
Proof. rewrite !FloatAxioms.eqb_spec. apply SFeqb_trans. Qed.

Lemma eqb_not_ltb x y : (x =? y) = true -> (x <? y) = false.
Proof. rewrite FloatAxioms.ltb_spec, FloatAxioms.eqb_spec. apply SFeqb_not_ltb. Qed.

Lemma eqb_not_gtb x y : (x =? y) = true -> (y <? x) = false.
Proof. intros H. apply eqb_not_ltb, eqb_sym, H. Qed.

End FloatOrder.

(** ** min with a key *)

Section MinScan.

Context {A : Type} (key : A -> float).

Lemma least_below (b x : A) (pre : list A) :
  least key b pre -> (key x <? key b)%float = true -> least key x (pre ++ [x]).
Proof.
  intros Hb Hx y Hy. apply in_app_or in Hy as [Hy | [<- | []]].
  - destruct (key y <? key x)%float eqn:E; [|reflexivity].
    rewrite <- (Hb y Hy). symmetry. eapply FloatOrder.ltb_trans; eassumption.
  - apply FloatOrder.ltb_irrefl.
Qed.

Lemma first_least_below (b x : A) (pre : list A) :
  least key b pre -> (key x <? key b)%float = true ->
  first_least key x (List.length pre) (pre ++ [x]).
Proof.
  intros Hb Hx j y Hj Hy. rewrite nth_error_app1 in Hy by assumption.
  apply nth_error_In in Hy.
  destruct (key y =? key y)%float eqn:Dy; [left | now right].
  destruct (FloatOrder.ltb_defined _ _ Hx) as [_ Db].
  destruct (FloatOrder.total _ _ Db Dy) as [H | [H | H]].
  - eapply FloatOrder.ltb_trans; eassumption.
  - eapply FloatOrder.ltb_eqb; eassumption.
  - rewrite (Hb y Hy) in H. discriminate.
Qed.

Lemma min_scan_spec (xs pre : list A) (b r : A) (bi ri : nat) :
  nth_error pre bi = Some b ->
  least key b pre ->
  first_least key b bi pre ->
  min_scan key (bi, b) (List.length pre) xs = (ri, r) ->
  nth_error (pre ++ xs) ri = Some r
  /\ least key r (pre ++ xs)
  /\ first_least key r ri (pre ++ xs).
Proof.
  revert pre b bi. induction xs as [|x xs IH]; intros pre b bi Hn Hl Hf Hs.
  - simpl in Hs. injection Hs as <- <-. rewrite app_nil_r. auto.
  - simpl in Hs.
    replace (pre ++ x :: xs) with ((pre ++ [x]) ++ xs)
      by (rewrite <- app_assoc; reflexivity).
    replace (S (List.length pre)) with (List.length (pre ++ [x])) in Hs
      by (rewrite length_app; simpl; lia).
    destruct (key x <? key b)%float eqn:E; simpl in Hs.
    + apply (IH (pre ++ [x]) x (List.length pre)); trivial.
      * rewrite nth_error_app2, Nat.sub_diag by lia. reflexivity.
      * eapply least_below; eassumption.
      * eapply first_least_below; eassumption.
    + assert (bi < List.length pre)%nat as Hlt
        by (apply nth_error_Some; congruence).
      apply (IH (pre ++ [x]) b bi); trivial.
      * rewrite nth_error_app1; assumption.
      * intros y Hy. apply in_app_or in Hy as [Hy | [<- | []]]; auto.
      * intros j y Hj Hy. rewrite nth_error_app1 in Hy by lia. eauto.
Qed.

Lemma py_min_spec (xs : list A) (i : nat) (r : A) :
  py_min key xs = Some (i, r) ->
  nth_error xs i = Some r /\ least key r xs /\ first_least key r i xs.
Proof.
  destruct xs as [|x xs]; [discriminate|]. simpl. intros H.
  injection H as H.
  apply (min_scan_spec xs [x] x r 0 i); trivial.
  - intros y [<- | []]. apply FloatOrder.ltb_irrefl.
  - intros j y Hj. lia.
Qed.

End MinScan.

(** ** GridManager.build *)

Lemma list_remove_eq (i : nat) (c : float) (xs : list float) (f : float -> bool) :
  nth_error xs i = Some c ->
  f c = false ->
  (forall x, (x =? c)%float = true -> f x = false) ->
  filter f (list_remove i c xs) = filter f xs.
Proof.
  intros Hn Hc Heq. revert i Hn. induction xs as [|x xs IH]; intros i Hn.
  - reflexivity.
  - destruct i as [|i]; simpl in *.
    + injection Hn as ->. now rewrite Hc.
    + destruct (x =? c)%float eqn:E.
      * now rewrite (Heq x E).
      * simpl. now rewrite (IH i Hn).
Qed.

Lemma build_filters (cfg : Config) (last_close : float) (buys sells : list float) :
  build cfg last_close = Some (buys, sells) ->
  exists levels i closest,
    grid_levels cfg = Some levels
    /\ closest_level levels last_close = Some (i, closest)
    /\ buys = filter (fun p => (p <? closest)%float) levels
    /\ sells = filter (fun p => (closest <? p)%float) levels.
Proof.
  unfold build. destruct (grid_levels cfg) as [levels|]; [|discriminate].
  destruct (closest_level levels last_close) as [[i c]|] eqn:Hc; [|discriminate].
  intros H. injection H as <- <-. exists levels, i, c.
  destruct (py_min_spec _ _ _ _ Hc) as (Hn & _).
  split; [reflexivity|]. split; [assumption|]. split.
  - apply list_remove_eq; trivial.
    + apply FloatOrder.ltb_irrefl.
    + intros x. apply FloatOrder.eqb_not_ltb.
  - apply list_remove_eq; trivial.
    + apply FloatOrder.ltb_irrefl.
    + intros x. apply FloatOrder.eqb_not_gtb.
Qed.

#[local] Open Scope float_scope.



(** X1.  The two sides of [build] and the level it leaves out split the generated
    sequence: the buys are the levels below the excluded one and the sells
    the levels above it, no level is on both sides, the excluded level is on
    neither, and every level is on one side or equal to the excluded one
    (or one of the two is a NaN, which compares with nothing). *)
Theorem build_partitions_levels (cfg : Config) (last_close : float)
    (buys sells : list float) :
  build cfg last_close = Some (buys, sells) ->
  exists levels i closest,
    grid_levels cfg = Some levels
    /\ closest_level levels last_close = Some (i, closest)
    /\ nth_error levels i = Some closest
    /\ (forall p, In p buys <-> In p levels /\ (p <? closest) = true)
    /\ (forall p, In p sells <-> In p levels /\ (closest <? p) = true)
    /\ (forall p, In p buys -> ~ In p sells)
    /\ ~ In closest buys
    /\ ~ In closest sells
    /\ (forall p, In p levels ->
          In p buys \/ In p sells \/ (p =? closest) = true
          \/ (p =? p) = false \/ (closest =? closest) = false).
Proof.
  intros H.
  destruct (build_filters _ _ _ _ H) as (levels & i & c & Hl & Hc & -> & ->).
  destruct (py_min_spec _ _ _ _ Hc) as (Hn & _).
  exists levels, i, c. repeat (split; [assumption|]).
  split; [intros p; exact (filter_In (fun q => q <? c) p levels)|].
  split; [intros p; exact (filter_In (fun q => c <? q) p levels)|].
  split; [|split; [|split]].
  - intros p Hb Hs. apply filter_In in Hb as [_ Hb], Hs as [_ Hs].
    rewrite (FloatOrder.ltb_asym _ _ Hb) in Hs. discriminate.
  - intros Hb. apply filter_In in Hb as [_ Hb].
    rewrite FloatOrder.ltb_irrefl in Hb. discriminate.
  - intros Hs. apply filter_In in Hs as [_ Hs].
    rewrite FloatOrder.ltb_irrefl in Hs. discriminate.
  - intros p Hp.
    destruct (p =? p) eqn:Dp; [|auto].
    destruct (c =? c) eqn:Dc; [|auto].
    destruct (FloatOrder.total _ _ Dp Dc) as [Hlt | [Heq | Hgt]].
    + left. apply filter_In. auto.
    + auto.
    + right. left. apply filter_In. auto.
Qed.

Lemma build_partitions_levels_witness :
  exists levels i closest,
    grid_levels (mk_config 1.00 1.10 0.02) = Some levels
    /\ closest_level levels 1.05 = Some (i, closest)
    /\ nth_error levels i = Some closest
    /\ (forall p, In p [1.00; 1.02] <-> In p levels /\ (p <? closest) = true)
    /\ (forall p, In p [1.06; 1.08; 1.10]
                  <-> In p levels /\ (closest <? p) = true)
    /\ (forall p, In p [1.00; 1.02] -> ~ In p [1.06; 1.08; 1.10])
    /\ ~ In closest [1.00; 1.02]
    /\ ~ In closest [1.06; 1.08; 1.10]
    /\ (forall p, In p levels ->
          In p [1.00; 1.02] \/ In p [1.06; 1.08; 1.10] \/ (p =? closest) = true
          \/ (p =? p) = false \/ (closest =? closest) = false).
Proof.
  apply (build_partitions_levels (mk_config 1.00 1.10 0.02) 1.05).
  vm_compute. reflexivity.
Defined.

(** C3.  The level that [GridManager.build] leaves out is an element of the
    generated sequence whose distance to the rounded reference price no other
    element undercuts, and it is the first such element in the order of the
    sequence: every element before it is strictly farther (or has no
    distance, a NaN).  The two sides are the elements below and above it.
    For min 1.00, max 1.10, step 0.02 and reference price 1.05 the sequence
    is 1.00, 1.02, 1.04, 1.06, 1.08, 1.10; of the two elements at the same
    distance, 1.04 and 1.06, the first one is left out; the buys are 1.00 and
    1.02 and the sells 1.06, 1.08 and 1.10.  The choice is a function of the
    configuration and the reference price alone. *)
Theorem build_excludes_first_closest :
  (forall cfg last_close buys sells,
      build cfg last_close = Some (buys, sells) ->
      exists levels i closest,
        grid_levels cfg = Some levels
        /\ closest_level levels last_close = Some (i, closest)
        /\ nth_error levels i = Some closest
        /\ least (distance last_close) closest levels
        /\ first_least (distance last_close) closest i levels
        /\ buys = filter (fun p => p <? closest) levels
        /\ sells = filter (fun p => closest <? p) levels)
  /\ grid_levels (mk_config 1.00 1.10 0.02)
     = Some [1.00; 1.02; 1.04; 1.06; 1.08; 1.10]
  /\ distance 1.05 1.04 = distance 1.05 1.06
  /\ closest_level [1.00; 1.02; 1.04; 1.06; 1.08; 1.10] 1.05 = Some (2%nat, 1.04)
  /\ build (mk_config 1.00 1.10 0.02) 1.05
     = Some ([1.00; 1.02], [1.06; 1.08; 1.10])
  /\ (forall levels last_close r1 r2,
         closest_level levels last_close = r1 ->
         closest_level levels last_close = r2 -> r1 = r2).
Proof.
  split; [|repeat (split; [vm_compute; reflexivity|]); congruence].
  intros cfg last_close buys sells H.
  destruct (build_filters _ _ _ _ H) as (levels & i & c & Hl & Hc & Hb & Hs).
  destruct (py_min_spec _ _ _ _ Hc) as (Hn & Hleast & Hfirst).
  exists levels, i, c. repeat split; assumption.
Qed.

Lemma build_excludes_first_closest_witness :
  exists levels i closest,
    grid_levels (mk_config 1.00 1.10 0.02) = Some levels
    /\ closest_level levels 1.05 = Some (i, closest)
    /\ nth_error levels i = Some closest
    /\ least (distance 1.05) closest levels
    /\ first_least (distance 1.05) closest i levels
    /\ [1.00; 1.02] = filter (fun p => p <? closest) levels
    /\ [1.06; 1.08; 1.10] = filter (fun p => closest <? p) levels.
Proof.
  apply (proj1 build_excludes_first_closest
           (mk_config 1.00 1.10 0.02) 1.05 [1.00; 1.02] [1.06; 1.08; 1.10]).
  vm_compute. reflexivity.
Defined.

(** C1.  With min 1.00, max 1.10 and step 0.06, a configuration the
    specification admits, the sequence of [GridManager.build] is 1.00, 1.06,
    1.12: the stop of [arange] is half a step beyond [max_price], and the
    last level lies above the bound that [on_fill] enforces on every
    replacement. *)
Theorem build_level_above_max_price :
  let cfg := mk_config 1.00 1.10 0.06 in
  valid_config cfg = true
  /\ grid_levels cfg = Some [1.00; 1.06; 1.12]
  /\ build cfg 1.05 = Some ([1.00], [1.12])
  /\ (max_price cfg <? 1.12) = true
  /\ in_range cfg 1.12 = false.
Proof. vm_compute. repeat split; reflexivity. Qed.

(** ** Dictionaries *)

Section DictFacts.

Context {K V : Type} (eqb : K -> K -> bool).

Lemma dict_del_absent (k : K) (d : list (K * V)) :
  dict_get eqb k d = None -> dict_del eqb k d = d.
Proof.
  induction d as [|[k' v] d IH]; simpl; [reflexivity|].
  destruct (eqb k' k); [discriminate|]. intros H. simpl. now rewrite IH.
Qed.

Lemma dict_get_del (k : K) (d : list (K * V)) :
  dict_get eqb k (dict_del eqb k d) = None.
Proof.
  induction d as [|[k' v] d IH]; simpl; [reflexivity|].
  destruct (eqb k' k) eqn:E; simpl; [assumption|]. now rewrite E.
Qed.

Lemma dict_get_set_absent (k k' : K) (v : V) (d : list (K * V)) :
  eqb k' k = false ->
  dict_get eqb k d = None -> dict_get eqb k (dict_set eqb k' v d) = None.
Proof.
  intros Hk. induction d as [|[k0 v0] d IH]; simpl.
  - now rewrite Hk.
  - destruct (eqb k0 k) eqn:E; [discriminate|]. intros H.
    destruct (eqb k0 k'); simpl; rewrite E; auto.
Qed.

Lemma dict_get_set_present (k k' : K) (v : V) (d : list (K * V)) :
  dict_get eqb k d <> None -> dict_get eqb k (dict_set eqb k' v d) <> None.
Proof.
  induction d as [|[k0 v0] d IH]; simpl; [congruence|].
  destruct (eqb k0 k') eqn:E'; simpl; destruct (eqb k0 k); auto; congruence.
Qed.

Lemma dict_set_Forall (P : K * V -> Prop) (k : K) (v : V) (d : list (K * V)) :
  P (k, v) -> (forall k0 v0, P (k0, v0) -> P (k0, v)) ->
  Forall P d -> Forall P (dict_set eqb k v d).
Proof.
  intros Hk Hv. induction 1 as [|[k0 v0] d H0 Hd IH]; simpl.
  - repeat constructor. assumption.
  - destruct (eqb k0 k); constructor; eauto.
Qed.

Lemma dict_del_Forall (P : K * V -> Prop) (k : K) (d : list (K * V)) :
  Forall P d -> Forall P (dict_del eqb k d).
Proof.
  intros H. apply Forall_forall. intros e He.
  apply filter_In in He as [He _]. revert e He. now apply Forall_forall.
Qed.

End DictFacts.

(** ** Reasoning on statements *)

Lemma hoare_bind {A B} (P : World -> Prop) (R : A -> World -> Prop)
    (Q : outcome B -> World -> Prop) (c : M A) (k : A -> M B) :
  hoare P c (fun r w => match r with
                        | Return a => R a w
                        | Raise e => Q (Raise e) w
                        end) ->
  (forall a, hoare (R a) (k a) Q) ->
  hoare P (bind c k) Q.
Proof.
  intros Hc Hk w Hw. specialize (Hc w Hw). unfold bind.
  destruct (c w) as [[a|e] w']; simpl in *; [apply Hk|]; assumption.
Qed.

Lemma preserves_ret {A} (J : World -> Prop) (a : A) : preserves J (ret a).
Proof. intros w Hw. exact Hw. Qed.

Lemma preserves_raise {A} (J : World -> Prop) (e : exn) : preserves J (@raise A e).
Proof. intros w Hw. exact Hw. Qed.

Lemma preserves_get {A} (J : World -> Prop) (f : World -> A) : preserves J (get f).
Proof. intros w Hw. exact Hw. Qed.

Lemma preserves_update (J : World -> Prop) (f : World -> World) :
  (forall w, J w -> J (f w)) -> preserves J (update f).
Proof. intros H w Hw. apply H, Hw. Qed.

Lemma preserves_bind {A B} (J : World -> Prop) (c : M A) (k : A -> M B) :
  preserves J c -> (forall a, preserves J (k a)) -> preserves J (bind c k).
Proof.
  intros Hc Hk. apply hoare_bind with (R := fun _ => J); [|exact Hk].
  intros w Hw. specialize (Hc w Hw). destruct (fst (c w)); exact Hc.
Qed.

Lemma preserves_try {A} (J : World -> Prop) (c : M A) (h : exn -> M A) :
  preserves J c -> (forall e, preserves J (h e)) -> preserves J (try_except c h).
Proof.
  intros Hc Hh w Hw. specialize (Hc w Hw). unfold try_except.
  destruct (c w) as [[a|e] w']; simpl in *; [|apply Hh]; assumption.
Qed.

Lemma preserves_for_each {A} (J : World -> Prop) (xs : list A) (body : A -> M unit) :
  (forall x, preserves J (body x)) -> preserves J (for_each xs body).
Proof.
  intros H. induction xs as [|x xs IH]; simpl.
  - apply preserves_ret.
  - apply preserves_bind; auto.
Qed.

Lemma preserves_if {A} (J : World -> Prop) (b : bool) (c1 c2 : M A) :
  preserves J c1 -> preserves J c2 -> preserves J (if b then c1 else c2).
Proof. destruct b; auto. Qed.

Create HintDb preserve.
#[local] Hint Resolve preserves_ret preserves_raise preserves_get preserves_bind
  preserves_try preserves_for_each preserves_if : preserve.

Lemma preserves_frame (I : OrderBook -> Prop) (f : World -> World) :
  (forall w, active_orders (bot (f w)) = active_orders (bot w)) ->
  preserves (on_book I) (update f).
Proof. intros H w Hw. unfold on_book. simpl. rewrite H. exact Hw. Qed.

Lemma preserves_log (I : OrderBook -> Prop) (m : message) :
  preserves (on_book I) (log m).
Proof. apply preserves_frame. reflexivity. Qed.

Lemma preserves_call (I : OrderBook -> Prop) (c : call) :
  preserves (on_book I) (update (with_call c)).
Proof. apply preserves_frame. reflexivity. Qed.

#[local] Hint Resolve preserves_log preserves_call : preserve.

Lemma preserves_int (J : World -> Prop) (x : float) : preserves J (int x).
Proof. unfold int. destruct (Float.trunc x); auto with preserve. Qed.

#[local] Hint Resolve preserves_int : preserve.

(** ** ExchangeClient.place_order *)

Lemma place_order_preserves (I : OrderBook -> Prop) gw p side :
  (forall b, I b -> I (book_set (py_round p 4) (lower side) b)) ->
  preserves (on_book I) (place_order gw p side).
Proof.
  intros HI. unfold place_order.
  repeat (apply preserves_bind; [auto with preserve|intros ?]).
  destruct (order_reply gw _); auto with preserve.
  apply preserves_bind; [|auto with preserve].
  apply preserves_update. intros w Hw. apply HI, Hw.
Qed.

Lemma place_order_book gw p side w :
  active_orders (bot (snd (place_order gw p side w)))
  = if accepted gw w p (String.eqb (lower side) "buy")
    then book_set (py_round p 4) (lower side) (active_orders (bot w))
    else active_orders (bot w).
Proof.
  unfold place_order, accepted, int, bind, get, update, ret, raise.
  destruct (Float.trunc (p * 10000)) as [n|]; simpl; [|reflexivity].
  destruct (cloid_ok gw _); simpl; [|reflexivity].
  destruct (order_reply gw _); reflexivity.
Qed.

Lemma place_order_config gw p side w :
  config (bot (snd (place_order gw p side w))) = config (bot w).
Proof.
  unfold place_order, int, bind, get, update, ret, raise.
  destruct (Float.trunc (p * 10000)) as [n|]; simpl; [|reflexivity].
  destruct (cloid_ok gw _); simpl; [|reflexivity].
  destruct (order_reply gw _); reflexivity.
Qed.


(** ** RunningBot.on_fill *)

Lemma relevant_guard cfg trade :
  negb (String.eqb (coin trade) (token cfg))
  || negb (String.eqb (trade_type trade) "FILL") = negb (relevant cfg trade).
Proof.
  unfold relevant.
  destruct (String.eqb (coin trade) _), (String.eqb (trade_type trade) _);
    reflexivity.
Qed.

Lemma on_fill_irrelevant gw trade w :
  relevant (config (bot w)) trade = false ->
  on_fill gw trade w = (Return tt, w).
Proof.
  intros H. unfold on_fill, try_except, on_fill_steps, bind, get. simpl.
  rewrite relevant_guard, H. reflexivity.
Qed.

Lemma on_fill_untracked gw trade w :
  let k := py_round (price trade) 4 in
  relevant (config (bot w)) trade = true ->
  book_get k (active_orders (bot w)) = None
  \/ book_get k (active_orders (bot w)) = Some EmptyString ->
  on_fill gw trade w
  = (Return tt, with_log (No_active_order_found k) (popped k w)).
Proof.
  intros k H Hk. unfold on_fill, try_except, on_fill_steps, bind, get. simpl.
  rewrite relevant_guard, H. simpl. unfold book_pop, dict_pop.
  fold book_get. fold k. destruct Hk as [-> | ->]; reflexivity.
Qed.

Lemma on_fill_tracked gw trade w c side :
  let k := py_round (price trade) 4 in
  let cfg := config (bot w) in
  relevant cfg trade = true ->
  book_get k (active_orders (bot w)) = Some (String c side) ->
  on_fill gw trade w
  = let (new_price, new_side) := replacement cfg k (String c side) in
    if in_range cfg new_price
    then try_except (place_order gw new_price new_side ;; ret tt)
                    (fun e => log (Fill_processing_error e))
                    (announced k (String c side) w)
    else (Return tt, with_log (Price_out_of_range new_price)
                              (announced k (String c side) w)).
Proof.
  intros k cfg H Hk. subst k cfg.
  unfold on_fill, on_fill_steps, announced, popped, try_except, bind, get, log,
    update, ret.
  simpl. rewrite relevant_guard, H. simpl. unfold book_pop, dict_pop.
  fold book_get. rewrite Hk.
  destruct (replacement _ _ _) as [new_price new_side]. simpl.
  destruct (in_range _ new_price); reflexivity.
Qed.

Lemma try_place_book gw p side (h : exn -> message) w :
  active_orders (bot (snd (try_except (place_order gw p side ;; ret tt)
                                      (fun e => log (h e)) w)))
  = active_orders (bot (snd (place_order gw p side w))).
Proof.
  unfold try_except, bind.
  destruct (place_order gw p side w) as [[b|e] w']; reflexivity.
Qed.

Lemma try_place_config gw p side (h : exn -> message) w :
  config (bot (snd (try_except (place_order gw p side ;; ret tt)
                               (fun e => log (h e)) w)))
  = config (bot w).
Proof.
  rewrite <- (place_order_config gw p side w). unfold try_except, bind.
  destruct (place_order gw p side w) as [[b|e] w']; reflexivity.
Qed.

Lemma announced_book k side w :
  active_orders (bot (announced k side w)) = book_del k (active_orders (bot w)).
Proof. unfold announced. destruct (replacement _ _ _). reflexivity. Qed.

Lemma announced_config k side w :
  config (bot (announced k side w)) = config (bot w).
Proof. unfold announced. destruct (replacement _ _ _). reflexivity. Qed.

Lemma announced_wire k side w : wire (announced k side w) = wire w.
Proof. unfold announced. destruct (replacement _ _ _). reflexivity. Qed.

Lemma accepted_wire gw w w' p is_buy :
  wire w' = wire w -> accepted gw w' p is_buy = accepted gw w p is_buy.
Proof. unfold accepted. now intros ->. Qed.

(** The order book after the fill of a tracked level. *)
Lemma on_fill_tracked_book gw trade w c side :
  let k := py_round (price trade) 4 in
  let cfg := config (bot w) in
  let book := active_orders (bot w) in
  relevant cfg trade = true ->
  book_get k book = Some (String c side) ->
  active_orders (bot (snd (on_fill gw trade w)))
  = let (new_price, new_side) := replacement cfg k (String c side) in
    if in_range cfg new_price
       && accepted gw w new_price (String.eqb (lower new_side) "buy")
    then book_set (py_round new_price 4) (lower new_side) (book_del k book)
    else book_del k book.
Proof.
  intros k cfg book H Hk. rewrite (on_fill_tracked gw trade w c side H Hk).
  fold k cfg. destruct (replacement cfg k (String c side)) as [np ns].
  destruct (in_range cfg np); simpl.
  - rewrite try_place_book, place_order_book, announced_book.
    rewrite (accepted_wire gw w) by apply announced_wire. reflexivity.
  - apply announced_book.
Qed.

Lemma on_fill_config gw trade w :
  config (bot (snd (on_fill gw trade w))) = config (bot w).
Proof.
  destruct (relevant (config (bot w)) trade) eqn:H.
  - destruct (book_get (py_round (price trade) 4) (active_orders (bot w)))
      as [[|c side]|] eqn:Hk.
    + rewrite on_fill_untracked; auto.
    + rewrite (on_fill_tracked gw trade w c side H Hk).
      destruct (replacement _ _ _) as [np ns].
      destruct (in_range _ np); simpl.
      * rewrite try_place_config. apply announced_config.
      * apply announced_config.
    + rewrite on_fill_untracked; auto.
  - rewrite on_fill_irrelevant; auto.
Qed.

(** Whatever the fill, its level is not tracked afterwards, unless the
    replacement lands on the level itself. *)
Lemma on_fill_level_absent gw trade w :
  let k := py_round (price trade) 4 in
  let cfg := config (bot w) in
  relevant cfg trade = true ->
  (py_round (k + bin_step cfg) 4 =? k) = false ->
  (py_round (k - bin_step cfg) 4 =? k) = false ->
  book_get k (active_orders (bot (snd (on_fill gw trade w)))) = None.
Proof.
  intros k cfg H Hup Hdown.
  destruct (book_get k (active_orders (bot w))) as [[|c side]|] eqn:Hk.
  - rewrite on_fill_untracked; auto. apply dict_get_del.
  - rewrite (on_fill_tracked_book gw trade w c side H Hk). fold k cfg.
    unfold replacement.
    destruct (String.eqb (String c side) "buy");
      match goal with |- context [if ?b then _ else _] => destruct b end;
      try apply dict_get_del;
      apply dict_get_set_absent; try apply dict_get_del; assumption.
  - rewrite on_fill_untracked; auto. apply dict_get_del.
Qed.

(** C2, as amended.  When the order book tracks a buy at the rounded price
    [k] of a terminal fill of the configured market, [on_fill] removes [k]
    and writes a sell at [k + bin_step], rounded, if and only if
    [min_price <= k + bin_step <= max_price] and the placement succeeds: the
    client identifier is built and the exchange answers "ok".  Symmetrically
    a filled sell is replaced by a buy at [k - bin_step].  In every other
    case the replacement is dropped and nothing is written. *)
Theorem fill_replacement (gw : Gateway) (w : World) (trade : Trade) :
  let cfg := config (bot w) in
  let k := py_round (price trade) 4 in
  let book := active_orders (bot w) in
  let book' := active_orders (bot (snd (on_fill gw trade w))) in
  relevant cfg trade = true ->
  (book_get k book = Some "buy"%string ->
   book' = if in_range cfg (k + bin_step cfg)
              && accepted gw w (k + bin_step cfg) false
           then book_set (py_round (k + bin_step cfg) 4) "sell"
                         (book_del k book)
           else book_del k book)
  /\ (book_get k book = Some "sell"%string ->
      book' = if in_range cfg (k - bin_step cfg)
                 && accepted gw w (k - bin_step cfg) true
              then book_set (py_round (k - bin_step cfg) 4) "buy"
                            (book_del k book)
              else book_del k book).
Proof.
  intros cfg k book book' H. split; intros Hk; subst book';
    rewrite (on_fill_tracked_book gw trade w _ _ H Hk); reflexivity.
Qed.

Lemma fill_replacement_witness :
  active_orders
    (bot (snd (on_fill (gateway Status_ok 1.05) (fill 1.02)
                       (tracking (mk_config 1.00 1.10 0.02)
                                 [(1.02, "buy"%string)]))))
  = [(1.04, "sell"%string)].
Proof.
  rewrite (proj1 (fill_replacement (gateway Status_ok 1.05)
                    (tracking (mk_config 1.00 1.10 0.02) [(1.02, "buy"%string)])
                    (fill 1.02) eq_refl));
    vm_compute; reflexivity.
Defined.

(** C2, as stated, fails: the fill of the buy tracked at 1.02, with step 0.02
    and max 1.10, leaves no sell at 1.04 when the exchange answers the
    request with an error status. *)
Lemma fill_not_replaced_when_rejected : ~ replaced_iff_in_range.
Proof.
  intros H.
  specialize (H (gateway Status_other 1.05)
                (tracking (mk_config 1.00 1.10 0.02) [(1.02, "buy"%string)])
                (fill 1.02)).
  cbv zeta in H. destruct H as [H _]; [vm_compute; reflexivity|].
  assert (book_get (py_round 1.02 4) [(1.02, "buy"%string)] = Some "buy"%string)
    as Hk by (vm_compute; reflexivity).
  apply H in Hk. destruct Hk as [_ Hk].
  assert (Some "sell"%string = None) as E; [|discriminate].
  rewrite <- Hk by (vm_compute; reflexivity). vm_compute. reflexivity.
Qed.

(** C7.  A fill that is not a terminal fill of the configured market, or
    whose rounded price is not a tracked level, leaves the order book as it
    was and sends nothing to the exchange; [on_fill] returns normally. *)
Theorem untracked_fill_changes_nothing (gw : Gateway) (w : World) (trade : Trade) :
  relevant (config (bot w)) trade = false
  \/ book_get (py_round (price trade) 4) (active_orders (bot w)) = None ->
  fst (on_fill gw trade w) = Return tt
  /\ active_orders (bot (snd (on_fill gw trade w))) = active_orders (bot w)
  /\ wire (snd (on_fill gw trade w)) = wire w.
Proof.
  intros H. destruct (relevant (config (bot w)) trade) eqn:Hr.
  - destruct H as [H | H]; [discriminate|].
    rewrite on_fill_untracked by auto. repeat split.
    simpl. apply dict_del_absent, H.
  - rewrite on_fill_irrelevant by assumption. repeat split.
Qed.

Lemma untracked_fill_changes_nothing_witness :
  let w := tracking (mk_config 1.00 1.10 0.02) [(1.02, "buy"%string)] in
  fst (on_fill (gateway Status_ok 1.05) (fill 1.03) w) = Return tt
  /\ active_orders (bot (snd (on_fill (gateway Status_ok 1.05) (fill 1.03) w)))
     = [(1.02, "buy"%string)]
  /\ wire (snd (on_fill (gateway Status_ok 1.05) (fill 1.03) w)) = [].
Proof.
  apply (untracked_fill_changes_nothing (gateway Status_ok 1.05)
           (tracking (mk_config 1.00 1.10 0.02) [(1.02, "buy"%string)])
           (fill 1.03)).
  right. vm_compute. reflexivity.
Defined.

(** The steps of [on_fill] do raise: here [Cloid.from_int] refuses the
    identifier of the replacement. *)
Example on_fill_steps_may_raise :
  let gw := {| user_state_ok := true; candles := Some 1.05;
               cloid_ok := fun _ => false; order_reply := fun _ => Status_ok;
               monitor_ok := true; thread_ok := true;
               monitor_stop_ok := true; connect_ok := true |} in
  let w := tracking (mk_config 1.00 1.10 0.02) [(1.02, "buy"%string)] in
  fst (on_fill_steps gw (fill 1.02) w) = Raise TypeError
  /\ fst (on_fill gw (fill 1.02) w) = Return tt.
Proof. vm_compute. split; reflexivity. Qed.



(** C6, as amended.  When the replacement of the filled level [k] cannot
    land on [k] itself, that is [k + bin_step] and [k - bin_step] round to
    levels other than [k], processing a fill a second time leaves the order
    book as the first processing left it, whatever the exchange answers:
    the second delivery finds the level absent, changes nothing and sends
    nothing. *)
Theorem redelivery_idle_when_level_moves
    (gw1 gw2 : Gateway) (w : World) (trade : Trade) :
  let cfg := config (bot w) in
  let k := py_round (price trade) 4 in
  let w1 := snd (on_fill gw1 trade w) in
  (py_round (k + bin_step cfg) 4 =? k) = false ->
  (py_round (k - bin_step cfg) 4 =? k) = false ->
  (relevant cfg trade = true -> book_get k (active_orders (bot w1)) = None)
  /\ active_orders (bot (snd (on_fill gw2 trade w1))) = active_orders (bot w1)
  /\ wire (snd (on_fill gw2 trade w1)) = wire w1.
Proof.
  intros cfg k w1 Hup Hdown.
  assert (relevant cfg trade = true -> book_get k (active_orders (bot w1)) = None)
    as Habsent by (intros H; apply on_fill_level_absent; assumption).
  split; [exact Habsent|].
  assert (config (bot w1) = cfg) as Hcfg by apply on_fill_config.
  destruct (relevant cfg trade) eqn:Hr.
  - rewrite (on_fill_untracked gw2 trade w1) by (rewrite ?Hcfg; auto).
    simpl. split; [|reflexivity].
    apply dict_del_absent, Habsent. reflexivity.
  - rewrite (on_fill_irrelevant gw2 trade w1) by (rewrite Hcfg; exact Hr).
    split; reflexivity.
Qed.

Lemma redelivery_idle_when_level_moves_witness :
  let gw := gateway Status_ok 1.05 in
  let w1 := snd (on_fill gw (fill 1.02)
                   (tracking (mk_config 1.00 1.10 0.02) [(1.02, "buy"%string)])) in
  (true = true -> book_get (py_round 1.02 4) (active_orders (bot w1)) = None)
  /\ active_orders (bot (snd (on_fill gw (fill 1.02) w1))) = active_orders (bot w1)
  /\ wire (snd (on_fill gw (fill 1.02) w1)) = wire w1.
Proof.
  apply (redelivery_idle_when_level_moves (gateway Status_ok 1.05)
           (gateway Status_ok 1.05)
           (tracking (mk_config 1.00 1.10 0.02) [(1.02, "buy"%string)])
           (fill 1.02));
    vm_compute; reflexivity.
Defined.

(** C6, as stated, fails: with step 0.00004 the replacement of the buy
    filled at 1.05 is a sell at 1.05004, which is recorded under the level
    1.05 again; the second delivery finds that sell and replaces it by a
    buy. *)
Lemma redelivery_flips_collapsed_level : ~ redelivery_is_idle.
Proof.
  intros H.
  specialize (H (gateway Status_ok 1.05) (gateway Status_ok 1.05)
                (tracking (mk_config 1.00 1.10 0.00004) [(1.05, "buy"%string)])
                (fill 1.05)).
  vm_compute in H. discriminate.
Qed.

(** ** The invariant of the order book *)

(** [round(x, 4)] of a finite float is the float of a decimal with four
    fractional digits. *)
Lemma rounded_key (x : float) : finite x -> rounded4 (py_round x 4).
Proof.
  unfold finite, py_round. intros H.
  destruct (Prim2SF x) as [s|s| |s m e] eqn:E; try contradiction.
  - exists s, N0. rewrite <- (SF2Prim_Prim2SF x), E. destruct s; reflexivity.
  - destruct (Float.scaled_rne _ m e) as [|n|n].
    + exists s, N0. reflexivity.
    + exists s, (Npos n). reflexivity.
    + exists s, N0. reflexivity.
Qed.

(** [int(p * 10000)] returns on finite prices only. *)
Lemma int_scaled_finite (p : float) (n : Z) :
  Float.trunc (p * 10000) = Some n -> finite p.
Proof.
  unfold Float.trunc, finite. rewrite mul_spec.
  replace (Prim2SF 10000) with (S754_finite false 5497558138880000 (-39))
    by (vm_compute; reflexivity).
  destruct (Prim2SF p) as [s|s| |s m e]; simpl; trivial; discriminate.
Qed.

Lemma accepted_finite gw w p is_buy : accepted gw w p is_buy = true -> finite p.
Proof.
  unfold accepted. destruct (Float.trunc (p * 10000)) as [n|] eqn:E;
    [|discriminate].
  intros _. eapply int_scaled_finite, E.
Qed.

Lemma book_inv_set (k : float) (side : string) (b : OrderBook) :
  rounded4 k ->
  side = "buy"%string \/ side = "sell"%string ->
  book_inv b -> book_inv (book_set k side b).
Proof.
  intros Hk Hs. apply dict_set_Forall.
  - split; assumption.
  - intros k0 v0 [Hk0 _]. split; assumption.
Qed.

Lemma book_inv_del (k : float) (b : OrderBook) :
  book_inv b -> book_inv (book_del k b).
Proof. apply dict_del_Forall. Qed.

Lemma place_order_inv gw p side :
  lower side = "buy"%string \/ lower side = "sell"%string ->
  preserves (on_book book_inv) (place_order gw p side).
Proof.
  intros Hs w Hw. unfold on_book in *. rewrite place_order_book.
  destruct (accepted gw w p _) eqn:Ha; [|exact Hw].
  apply book_inv_set; trivial.
  apply rounded_key. eapply accepted_finite, Ha.
Qed.

Lemma replacement_side cfg k side :
  lower (snd (replacement cfg k side)) = "buy"%string
  \/ lower (snd (replacement cfg k side)) = "sell"%string.
Proof. unfold replacement. destruct (String.eqb side "buy"); auto. Qed.

Lemma on_fill_inv gw trade : preserves (on_book book_inv) (on_fill gw trade).
Proof.
  intros w Hw. unfold on_book in *.
  destruct (relevant (config (bot w)) trade) eqn:H.
  - destruct (book_get (py_round (price trade) 4) (active_orders (bot w)))
      as [[|c side]|] eqn:Hk.
    + rewrite on_fill_untracked by auto. simpl. now apply book_inv_del.
    + rewrite (on_fill_tracked gw trade w c side H Hk).
      pose proof (replacement_side (config (bot w))
                    (py_round (price trade) 4) (String c side)) as Hs.
      destruct (replacement _ _ _) as [np ns]. simpl in Hs.
      assert (on_book book_inv
                (announced (py_round (price trade) 4) (String c side) w)) as Ha
        by (unfold on_book; rewrite announced_book; now apply book_inv_del).
      destruct (in_range _ np).
      * refine (preserves_try (on_book book_inv) _ _ _ _ _ Ha).
        -- apply preserves_bind; [now apply place_order_inv|].
           intros ?. apply preserves_ret.
        -- intros e. apply preserves_log.
      * exact Ha.
    + rewrite on_fill_untracked by auto. simpl. now apply book_inv_del.
  - rewrite on_fill_irrelevant by assumption. exact Hw.
Qed.

(** ** RunningBot.start and RunningBot.stop *)

(** [place_order] touches the order book and the wire only. *)
Lemma place_order_frame (J : World -> Prop) gw p side :
  (forall w c, J w -> J (with_call c w)) ->
  (forall w b, J w -> J (with_active_orders b w)) ->
  preserves J (place_order gw p side).
Proof.
  intros Hc Hb. unfold place_order.
  repeat (apply preserves_bind; [auto using preserves_update with preserve|intros ?]).
  destruct (order_reply gw _); auto with preserve.
  apply preserves_bind; [|auto with preserve].
  apply preserves_update. intros w Hw. apply Hb, Hw.
Qed.

Lemma place_grid_frame (J : World -> Prop) gw (levels : list float) side :
  (forall w c, J w -> J (with_call c w)) ->
  (forall w b, J w -> J (with_active_orders b w)) ->
  preserves J (for_each levels (fun p => place_order gw p side ;; ret tt)).
Proof.
  intros Hc Hb. apply preserves_for_each. intros p.
  apply preserves_bind; [now apply place_order_frame|].
  intros ?. apply preserves_ret.
Qed.

Lemma start_steps_preserves (I : OrderBook -> Prop) gw :
  (forall p side, side = "buy"%string \/ side = "sell"%string ->
                  preserves (on_book I) (place_order gw p side)) ->
  preserves (on_book I) (start_steps gw).
Proof.
  intros HI.
  assert (forall levels side,
             side = "buy"%string \/ side = "sell"%string ->
             preserves (on_book I)
               (for_each levels (fun p => place_order gw p side ;; ret tt)))
    as Hloop.
  { intros levels side Hs. apply preserves_for_each. intros p.
    apply preserves_bind; [|intros ?; apply preserves_ret].
    apply HI, Hs. }
  unfold start_steps, cancel_all, get_close_price.
  repeat (apply preserves_bind; [auto with preserve|intros ?]).
  - destruct (candles gw); auto with preserve.
  - destruct (build _ _) as [[buys sells]|]; [|auto with preserve].
    repeat (apply preserves_bind;
            [auto using preserves_frame with preserve|intros ?]).
    apply preserves_ret.
Qed.

Lemma start_preserves (I : OrderBook -> Prop) main_thread gw :
  (forall p side, side = "buy"%string \/ side = "sell"%string ->
                  preserves (on_book I) (place_order gw p side)) ->
  preserves (on_book I) (start main_thread gw).
Proof.
  intros HI. unfold start.
  repeat (apply preserves_bind; [auto with preserve|intros ?]).
  apply preserves_if; auto 6 using start_steps_preserves with preserve.
Qed.

Lemma stop_preserves (I : OrderBook -> Prop) gw : preserves (on_book I) (stop gw).
Proof.
  unfold stop, cancel_all.
  repeat (apply preserves_bind; [auto with preserve|intros ?]).
  apply preserves_if; [auto with preserve|].
  repeat (apply preserves_bind;
          [auto 6 using preserves_frame with preserve|intros ?]).
  apply preserves_log.
Qed.

(** C9.  [stop] leaves the order book as it was, and a [start] that follows
    it on the same instance begins with that book and never removes a level:
    every level recorded by the previous run is still tracked while and after
    the orders of the new grid are placed. *)
Theorem stop_keeps_order_book
    (main_thread : bool) (gw1 gw2 : Gateway) (w : World) (k : float) :
  book_get k (active_orders (bot w)) <> None ->
  let w1 := snd (stop gw1 w) in
  active_orders (bot w1) = active_orders (bot w)
  /\ book_get k (active_orders (bot (snd (start main_thread gw2 w1)))) <> None.
Proof.
  intros Hk w1.
  assert (active_orders (bot w1) = active_orders (bot w)) as E
    by (exact (stop_preserves (fun b => b = active_orders (bot w)) gw1 w eq_refl)).
  split; [exact E|].
  apply (start_preserves (fun b => book_get k b <> None)).
  - intros p side _. apply place_order_preserves.
    intros b. apply dict_get_set_present.
  - unfold on_book. rewrite E. exact Hk.
Qed.

Lemma stop_keeps_order_book_witness :
  let gw := gateway Status_ok 1.05 in
  let w := tracking (mk_config 1.00 1.10 0.02) [(1.04, "buy"%string)] in
  active_orders (bot (snd (stop gw w))) = [(1.04, "buy"%string)]
  /\ book_get 1.04 (active_orders (bot (snd (start false gw (snd (stop gw w))))))
     <> None.
Proof.
  apply (stop_keeps_order_book false (gateway Status_ok 1.05)
           (gateway Status_ok 1.05)
           (tracking (mk_config 1.00 1.10 0.02) [(1.04, "buy"%string)]) 1.04).
  vm_compute. discriminate.
Defined.

(** C10.  [place_order], called with a side that is "buy" or "sell" in any
    case of letters, as every call of the source is, [on_fill], [start] and
    [stop] preserve the invariant of the order book: every key is a price
    rounded to four fractional digits, the float of a decimal [n / 10^4],
    and every value is "buy" or "sell". *)
Theorem order_book_invariant (gw : Gateway) (w : World) :
  book_inv (active_orders (bot w)) ->
  (forall p side,
      lower side = "buy"%string \/ lower side = "sell"%string ->
      book_inv (active_orders (bot (snd (place_order gw p side w)))))
  /\ (forall trade, book_inv (active_orders (bot (snd (on_fill gw trade w)))))
  /\ (forall main_thread,
         book_inv (active_orders (bot (snd (start main_thread gw w)))))
  /\ book_inv (active_orders (bot (snd (stop gw w)))).
Proof.
  intros Hw. repeat split.
  - intros p side Hs. now apply (place_order_inv gw p side Hs w).
  - intros trade. now apply (on_fill_inv gw trade w).
  - intros main_thread. apply (start_preserves book_inv main_thread gw); trivial.
    intros p side Hs. apply place_order_inv. destruct Hs as [-> | ->]; auto.
  - now apply (stop_preserves book_inv gw w).
Qed.

Lemma order_book_invariant_witness :
  let gw := gateway Status_ok 1.05 in
  let w := tracking (mk_config 1.00 1.10 0.02) [(1.02, "buy"%string)] in
  (forall p side,
      lower side = "buy"%string \/ lower side = "sell"%string ->
      book_inv (active_orders (bot (snd (place_order gw p side w)))))
  /\ (forall trade, book_inv (active_orders (bot (snd (on_fill gw trade w)))))
  /\ (forall main_thread,
         book_inv (active_orders (bot (snd (start main_thread gw w)))))
  /\ book_inv (active_orders (bot (snd (stop gw w)))).
Proof.
  apply (order_book_invariant (gateway Status_ok 1.05)
           (tracking (mk_config 1.00 1.10 0.02) [(1.02, "buy"%string)])).
  constructor; [|constructor]. split; [|left; reflexivity].
  exists false, 10200%N. vm_compute. reflexivity.
Defined.

Lemma place_grid_stopped cfg gw (levels : list float) side :
  preserves (stopped_as cfg)
            (for_each levels (fun p => place_order gw p side ;; ret tt)).
Proof. apply place_grid_frame; intros w ? H; exact H. Qed.

Lemma start_steps_outcome gw w :
  running (bot w) = false ->
  match start_steps gw w with
  | (Return b, w') =>
      b = true /\ running (bot w') = true
      /\ startup_completed gw (config (bot w))
      /\ last (log_queue (bot w')) Bot_is_already_running
         = Bot_started_successfully
  | (Raise e, w') => running (bot w') = false
  end.
Proof.
  intros Hr. unfold start_steps, startup_completed.
  unfold cancel_all, get_close_price, bind, log, update, get, ret, raise.
  simpl.
  destruct (user_state_ok gw); simpl; [|exact Hr].
  destruct (candles gw) as [p|]; simpl; [|exact Hr].
  destruct (build (config (bot w)) p) as [[buys sells]|] eqn:Hb; simpl;
    [|exact Hr].
  match goal with |- context [for_each ?xs ?body ?x] =>
    pose proof (place_grid_stopped (config (bot w)) gw xs "buy" x
                  (conj Hr eq_refl)) as H1;
    change (for_each xs body x)
      with (for_each xs (fun p => place_order gw p "buy" ;; ret tt) x);
    destruct (for_each xs (fun p => place_order gw p "buy" ;; ret tt) x)
      as [[[]|e1] w1]
  end; simpl in *; [|exact (proj1 H1)].
  match goal with |- context [for_each ?xs ?body ?x] =>
    pose proof (place_grid_stopped (config (bot w)) gw xs "sell" x H1) as H2;
    change (for_each xs body x)
      with (for_each xs (fun p => place_order gw p "sell" ;; ret tt) x);
    destruct (for_each xs (fun p => place_order gw p "sell" ;; ret tt) x)
      as [[[]|e2] w2]
  end; simpl in *; [|exact (proj1 H2)].
  destruct (monitor_ok gw); simpl; [|exact (proj1 H2)].
  destruct (thread_ok gw); simpl; [|exact (proj1 H2)].
  repeat split; trivial.
  - exists p. split; [reflexivity|congruence].
  - apply last_last.
Qed.

(** C5.  Called on the main thread, [start] raises [AttributeError] before
    its [try]: it returns nothing and logs nothing, whatever the state of the
    bot and of the collaborators. *)
Theorem start_on_main_thread_raises (gw : Gateway) (w : World) :
  start true gw w = (Raise AttributeError, w).
Proof. reflexivity. Qed.

(** X3.  Off the main thread, a [start] of a stopped bot returns [True] with the
    bot running only when the startup ran to its end; every failure of a step
    makes it return [False], with the error as the last entry of the log and
    the bot still stopped.  A reference price that cannot be fetched is such
    a failure. *)
Theorem start_fails_stopped (gw : Gateway) (w : World) :
  running (bot w) = false ->
  let r := fst (start false gw w) in
  let w' := snd (start false gw w) in
  ((r = Return true /\ running (bot w') = true
    /\ startup_completed gw (config (bot w))
    /\ last (log_queue (bot w')) Bot_is_already_running
       = Bot_started_successfully)
   \/ (r = Return false /\ running (bot w') = false
       /\ exists e, last (log_queue (bot w')) Bot_is_already_running
                    = Error_starting_bot e))
  /\ (candles gw = None -> r = Return false /\ running (bot w') = false).
Proof.
  intros Hr r w'.
  assert ((r = Return true /\ running (bot w') = true
           /\ startup_completed gw (config (bot w))
           /\ last (log_queue (bot w')) Bot_is_already_running
              = Bot_started_successfully)
          \/ (r = Return false /\ running (bot w') = false
              /\ exists e, last (log_queue (bot w')) Bot_is_already_running
                           = Error_starting_bot e)) as H.
  { subst r w'. unfold start, bind, get, ret, try_except. simpl. rewrite Hr.
    pose proof (start_steps_outcome gw w Hr) as H.
    destruct (start_steps gw w) as [[b|e] w1]; simpl.
    - left. destruct H as (-> & H). auto.
    - right. repeat split; trivial. exists e. apply last_last. }
  split; [exact H|].
  intros Hc. destruct H as [(_ & _ & (_ & (p & Hp & _) & _) & _) | (? & ? & _)];
    [congruence|auto].
Qed.

Lemma start_fails_stopped_witness :
  let gw := {| user_state_ok := true; candles := None;
               cloid_ok := fun _ => true; order_reply := fun _ => Status_ok;
               monitor_ok := true; thread_ok := true;
               monitor_stop_ok := true; connect_ok := true |} in
  let w := {| bot := new_bot (mk_config 1.00 1.10 0.02); wire := [] |} in
  fst (start false gw w) = Return false
  /\ running (bot (snd (start false gw w))) = false.
Proof.
  apply (start_fails_stopped
           {| user_state_ok := true; candles := None;
              cloid_ok := fun _ => true; order_reply := fun _ => Status_ok;
              monitor_ok := true; thread_ok := true;
              monitor_stop_ok := true; connect_ok := true |}
           {| bot := new_bot (mk_config 1.00 1.10 0.02); wire := [] |});
    reflexivity.
Defined.

(** X4.  A [start] of a bot that is running is refused: it returns [False], adds
    one entry to the log and changes nothing else. *)
Theorem start_of_running_bot_refused (gw : Gateway) (w : World) :
  running (bot w) = true ->
  start false gw w = (Return false, with_log Bot_is_already_running w).
Proof.
  intros Hr. unfold start, bind, get, ret, log, update. simpl. rewrite Hr.
  reflexivity.
Qed.

Lemma start_of_running_bot_refused_witness :
  let w := tracking (mk_config 1.00 1.10 0.02) [(1.02, "buy"%string)] in
  start false (gateway Status_ok 1.05) w
  = (Return false, with_log Bot_is_already_running w).
Proof.
  apply (start_of_running_bot_refused (gateway Status_ok 1.05)
           (tracking (mk_config 1.00 1.10 0.02) [(1.02, "buy"%string)])).
  reflexivity.
Defined.

(** ** The registry *)

(** C4.  [start_bot] does not look up the identifier.  With a bot registered
    and running under "bot-1", a second [start_bot("bot-1", ...)] builds a
    new bot whose [running] flag is unset, so that the guard of [start] does
    not fire: the orders of the account are cancelled, a new grid is placed
    and a second feed is opened; the call returns [True], the registry now
    names the new bot, and the first one is still running. *)
Theorem start_bot_restarts_registered_id :
  let cfg := mk_config 1.00 1.10 0.02 in
  let p := {| heap := [bot (tracking cfg [(1.02, "buy"%string)])];
              running_bots := [("bot-1"%string, 0%nat)];
              net := [] |} in
  let r := start_bot false (gateway Status_ok 1.05) "bot-1" cfg p in
  registry_get "bot-1" (running_bots p) = Some 0%nat
  /\ fst r = true
  /\ running_bots (snd r) = [("bot-1"%string, 1%nat)]
  /\ map running (heap (snd r)) = [true; true]
  /\ net (snd r)
     = [Cancel_all; Candles_snapshot;
        Order "ETH" true 1 1.00 10001; Order "ETH" true 1 1.02 10201;
        Order "ETH" false 1 1.06 10602; Order "ETH" false 1 1.08 10802;
        Order "ETH" false 1 1.10 11002; Monitor_start].
Proof. vm_compute. repeat split; reflexivity. Qed.

Lemma registry_set_absent (k k' : string) (a : nat) (d : list (string * nat)) :
  k' <> k ->
  registry_get k d = None -> registry_get k (registry_set k' a d) = None.
Proof.
  intros Hk. apply dict_get_set_absent. now apply String.eqb_neq.
Qed.

Lemma registry_set_wf (k : string) (a : nat) (d : list (string * nat)) :
  dict_wf String.eqb d -> dict_wf String.eqb (registry_set k a d).
Proof.
  induction d as [|[k0 a0] d IH]; simpl.
  - auto.
  - intros [H0 Hd]. destruct (String.eqb k0 k) eqn:E; simpl.
    + auto.
    + split; [|auto]. apply registry_set_absent; [|exact H0].
      apply String.eqb_neq in E. congruence.
Qed.

Lemma registry_del_wf (k : string) (d : list (string * nat)) :
  dict_wf String.eqb d -> dict_wf String.eqb (registry_del k d).
Proof.
  induction d as [|[k0 a0] d IH]; simpl; [auto|].
  intros [H0 Hd]. destruct (String.eqb k0 k); simpl; [auto|].
  split; [|auto]. clear IH Hd.
  induction d as [|[k1 a1] d IH]; simpl in *; [reflexivity|].
  destruct (String.eqb k1 k0) eqn:E0; [discriminate|].
  destruct (String.eqb k1 k); simpl; [auto|]. rewrite E0. auto.
Qed.

(** X5.  [start_bot] and [stop_bot] keep the registry a dictionary: at most one
    bot per identifier. *)
Theorem registry_one_bot_per_id
    (main_thread : bool) (gw : Gateway) (bot_id : string) (cfg : Config)
    (p : Process) :
  registry_wf p ->
  registry_wf (snd (start_bot main_thread gw bot_id cfg p))
  /\ registry_wf (snd (stop_bot gw bot_id p)).
Proof.
  unfold registry_wf. intros Hp. split.
  - unfold start_bot. destruct (connect_ok gw); simpl; [|exact Hp].
    destruct (start main_thread gw _) as [[[|]|e] w]; simpl; trivial.
    now apply registry_set_wf.
  - unfold stop_bot. destruct (registry_get bot_id _) as [a|]; [|exact Hp].
    destruct (nth_error _ a) as [b|]; [|exact Hp].
    destruct (stop gw _) as [[[]|e] w]; simpl; trivial.
    now apply registry_del_wf.
Qed.

Lemma registry_one_bot_per_id_witness :
  let p := {| heap := [bot (tracking (mk_config 1.00 1.10 0.02) [])];
              running_bots := [("bot-1"%string, 0%nat)]; net := [] |} in
  registry_wf (snd (start_bot false (gateway Status_ok 1.05) "bot-1"
                              (mk_config 1.00 1.10 0.02) p))
  /\ registry_wf (snd (stop_bot (gateway Status_ok 1.05) "bot-1" p)).
Proof.
  apply (registry_one_bot_per_id false (gateway Status_ok 1.05) "bot-1"
           (mk_config 1.00 1.10 0.02)
           {| heap := [bot (tracking (mk_config 1.00 1.10 0.02) [])];
              running_bots := [("bot-1"%string, 0%nat)]; net := [] |}).
  split; [reflexivity|exact I].
Defined.

(** ** Rounding never yields a NaN *)

Module FloatRound.

#[local] Open Scope Z_scope.

Lemma shr_1_nonneg mrs : 0 <= shr_m mrs -> 0 <= shr_m (shr_1 mrs).
Proof.
  destruct mrs as [m r s]. simpl. destruct m as [|[p|p|]|[p|p|]]; simpl; lia.
Qed.

Lemma iter_shr_nonneg (n : positive) mrs :
  0 <= shr_m mrs -> 0 <= shr_m (iter_pos shr_1 n mrs).
Proof.
  revert mrs. induction n as [n IH|n IH|]; intros mrs H; simpl.
  - apply IH, IH, shr_1_nonneg, H.
  - apply IH, IH, H.
  - apply shr_1_nonneg, H.
Qed.

Lemma shr_fexp_nonneg m e l :
  0 <= m -> 0 <= shr_m (fst (shr_fexp prec emax m e l)).
Proof.
  intros H. unfold shr_fexp, shr.
  assert (0 <= shr_m (shr_record_of_loc m l)) as H0
    by (destruct l as [|[| |]]; exact H).
  destruct (_ - e) as [|p|p]; simpl; trivial. now apply iter_shr_nonneg.
Qed.

Lemma round_nearest_even_nonneg m l : 0 <= m -> 0 <= round_nearest_even m l.
Proof.
  intros H. destruct l as [|[| |]]; simpl; try lia. destruct (Z.even m); lia.
Qed.

Lemma binary_round_aux_not_nan s m e l :
  0 <= m -> binary_round_aux prec emax s m e l <> S754_nan.
Proof.
  intros H. unfold binary_round_aux.
  pose proof (shr_fexp_nonneg m e l H) as H1.
  destruct (shr_fexp prec emax m e l) as [mrs' e']. simpl in H1.
  pose proof (shr_fexp_nonneg _ e' loc_Exact
                (round_nearest_even_nonneg _ (loc_of_shr_record mrs') H1)) as H2.
  destruct (shr_fexp prec emax _ e' loc_Exact) as [mrs'' e'']. simpl in H2.
  destruct (shr_m mrs'') as [|p|p]; try discriminate; [|lia].
  destruct (e'' <=? _); discriminate.
Qed.

Lemma binary_round_not_nan s m e : binary_round prec emax s m e <> S754_nan.
Proof.
  unfold binary_round. destruct (shl_align _ _ _) as [mz ez].
  apply binary_round_aux_not_nan. lia.
Qed.

Lemma binary_normalize_not_nan m e s :
  binary_normalize prec emax m e s <> S754_nan.
Proof.
  destruct m; simpl; [discriminate| |]; apply binary_round_not_nan.
Qed.

Lemma SFdiv_finite_not_nan s1 m1 e1 s2 m2 e2 :
  SFdiv prec emax (S754_finite s1 m1 e1) (S754_finite s2 m2 e2) <> S754_nan.
Proof.
  unfold SFdiv, SFdiv_core_binary.
  match goal with |- context [Z.div_eucl ?a ?b] =>
    pose proof (Z_div_mod a b ltac:(lia)) as H;
    assert (0 <= a) as Ha; [|destruct (Z.div_eucl a b) as [q r]] end.
  - destruct (_ - _ - _) as [|p|p]; try lia. rewrite Z.shiftl_mul_pow2 by lia.
    apply Z.mul_nonneg_nonneg; [lia|]. apply Z.pow_nonneg. lia.
  - apply binary_round_aux_not_nan. destruct H as [H1 H2]. nia.
Qed.

#[local] Open Scope float_scope.

Lemma not_nan_eqb x : Prim2SF x <> S754_nan <-> (x =? x) = true.
Proof.
  rewrite FloatAxioms.eqb_spec. unfold SFeqb.
  destruct (Prim2SF x) as [[|]|[|]| |[|] m e]; simpl;
    rewrite ?Z.compare_refl, ?Pos.compare_cont_refl; simpl; split; congruence.
Qed.

Lemma SF2Prim_not_nan x : x <> S754_nan -> Prim2SF (SF2Prim x) <> S754_nan.
Proof.
  intros H. destruct x as [[|]|[|]| |s m e]; try (vm_compute; discriminate).
  - contradiction.
  - unfold SF2Prim.
    assert (Prim2SF (Z.ldexp (of_uint63 (Uint63.of_Z (Z.pos m))) e)
            <> S754_nan) as Hf.
    { unfold Z.ldexp. rewrite ldshiftexp_spec, of_uint63_spec.
      pose proof (binary_normalize_not_nan
                    (Uint63.to_Z (Uint63.of_Z (Z.pos m))) 0 false) as Hn.
      destruct (binary_normalize _ _ _ _ _); simpl; try congruence.
      apply binary_round_not_nan. }
    destruct s; [|exact Hf]. rewrite opp_spec.
    destruct (Prim2SF _); simpl; congruence.
Qed.

(** A price rounded to four fractional digits equals itself: it can be
    found again in a dictionary. *)
Lemma rounded4_eqb (k : float) : rounded4 k -> (k =? k) = true.
Proof.
  intros (s & n & ->). destruct n as [|p]; simpl.
  - destruct s; vm_compute; reflexivity.
  - apply not_nan_eqb. unfold Float.of_ratio.
    apply SF2Prim_not_nan, SFdiv_finite_not_nan.
Qed.

End FloatRound.

(** ** More on dictionaries *)

Section DictLookup.

Context {K V : Type} (eqb : K -> K -> bool).

Lemma dict_get_set_same (k : K) (v : V) (d : list (K * V)) :
  eqb k k = true -> dict_get eqb k (dict_set eqb k v d) = Some v.
Proof.
  intros Hk. induction d as [|[k0 v0] d IH]; simpl.
  - now rewrite Hk.
  - destruct (eqb k0 k) eqn:E; simpl; rewrite E; auto.
Qed.

Lemma dict_set_length (k : K) (v : V) (d : list (K * V)) :
  (List.length (dict_set eqb k v d) <= S (List.length d))%nat.
Proof.
  induction d as [|[k0 v0] d IH]; simpl; [lia|].
  destruct (eqb k0 k); simpl; lia.
Qed.

Lemma dict_del_length (k : K) (d : list (K * V)) :
  (List.length (dict_del eqb k d) <= List.length d)%nat.
Proof. apply filter_length_le. Qed.

Lemma dict_del_shrinks (k : K) (d : list (K * V)) :
  dict_get eqb k d <> None ->
  (S (List.length (dict_del eqb k d)) <= List.length d)%nat.
Proof.
  induction d as [|[k0 v0] d IH]; simpl; [congruence|].
  destruct (eqb k0 k) eqn:E; simpl.
  - intros _. pose proof (dict_del_length k d). unfold dict_del in *. lia.
  - intros H. specialize (IH H). unfold dict_del in *. lia.
Qed.

Lemma dict_set_In (k k0 : K) (v v0 : V) (d : list (K * V)) :
  In (k0, v0) (dict_set eqb k v d) -> v0 = v \/ In (k0, v0) d.
Proof.
  induction d as [|[k1 v1] d IH]; simpl.
  - intros [H | []]. left. congruence.
  - destruct (eqb k1 k); simpl; intros [H | H]; auto.
    + left. congruence.
    + destruct (IH H); auto.
Qed.

Lemma dict_del_In (k : K) (e : K * V) (d : list (K * V)) :
  In e (dict_del eqb k d) -> In e d /\ eqb (fst e) k = false.
Proof.
  intros H. apply filter_In in H as [H1 H2].
  split; [exact H1|]. now apply negb_true_iff.
Qed.

Lemma dict_get_In (k : K) (v : V) (d : list (K * V)) :
  dict_get eqb k d = Some v -> exists k0, In (k0, v) d /\ eqb k0 k = true.
Proof.
  induction d as [|[k1 v1] d IH]; simpl; [discriminate|].
  destruct (eqb k1 k) eqn:E.
  - intros H. injection H as ->. eauto.
  - intros H. destruct (IH H) as (k0 & H0 & E0). eauto.
Qed.

End DictLookup.

(** Dictionaries keyed by strings: the keys compare by equality. *)
Section StringDict.

Context {V : Type}.

Lemma sdict_get_set_same (k : string) (v : V) (d : list (string * V)) :
  dict_get String.eqb k (dict_set String.eqb k v d) = Some v.
Proof. apply dict_get_set_same, String.eqb_refl. Qed.

Lemma sdict_get_set_other (k k' : string) (v : V) (d : list (string * V)) :
  k <> k' ->
  dict_get String.eqb k (dict_set String.eqb k' v d) = dict_get String.eqb k d.
Proof.
  intros Hk. induction d as [|[k0 v0] d IH]; simpl.
  - apply String.eqb_neq in Hk. rewrite String.eqb_sym, Hk. reflexivity.
  - destruct (String.eqb k0 k') eqn:E'; simpl.
    + apply String.eqb_eq in E'. subst k0.
      assert (String.eqb k' k = false) as ->
          by (apply String.eqb_neq; congruence).
      reflexivity.
    + destruct (String.eqb k0 k); auto.
Qed.

Lemma sdict_get_del_other (k k' : string) (d : list (string * V)) :
  k <> k' ->
  dict_get String.eqb k (dict_del String.eqb k' d) = dict_get String.eqb k d.
Proof.
  intros Hk. induction d as [|[k0 v0] d IH]; simpl; [reflexivity|].
  destruct (String.eqb k0 k') eqn:E'; simpl.
  - apply String.eqb_eq in E'. subst k0.
    assert (String.eqb k' k = false) as ->
        by (apply String.eqb_neq; congruence).
    exact IH.
  - destruct (String.eqb k0 k); auto.
Qed.

End StringDict.

#[local] Open Scope float_scope.

(** ** ExchangeClient.place_order: the three ways out *)

Lemma place_order_cases gw p side w :
  let is_buy := String.eqb (lower side) "buy" in
  place_order gw p side w
  = match Float.trunc (p * 10000) with
    | None => (Raise (if is_nan (p * 10000) then ValueError else OverflowError), w)
    | Some n =>
        if cloid_ok gw (n + (if is_buy then 1 else 2))%Z
        then
          let w1 := with_call (order_of (config (bot w)) is_buy p) w in
          match order_reply gw (List.length (wire w)) with
          | Status_ok =>
              (Return true,
               with_active_orders
                 (book_set (py_round p 4) (lower side) (active_orders (bot w)))
                 w1)
          | _ => (Return false, w1)
          end
        else (Raise TypeError, w)
    end.
Proof.
  unfold place_order, order_of, int, bind, get, update, ret, raise.
  destruct (Float.trunc (p * 10000)) as [n|]; simpl; [|reflexivity].
  destruct (cloid_ok gw _); simpl; [|reflexivity].
  destruct (order_reply gw _); reflexivity.
Qed.

(** X6.  [place_order] ends in one of three ways.  It returns [True] exactly when
    the client identifier could be built and the exchange answered "ok":
    the request is then on the wire and a lookup of the rounded price finds
    the side, in lower case, every other level being as before.  It returns
    [False] when the exchange answered anything else or raised: the request
    was sent and the order book is untouched.  It raises, on a price that
    [int] or [Cloid] refuses, before anything is sent or written. *)
Theorem place_order_outcome (gw : Gateway) (p : float) (side : string) (w : World) :
  let is_buy := String.eqb (lower side) "buy" in
  let request := order_of (config (bot w)) is_buy p in
  match place_order gw p side w with
  | (Return true, w') =>
      accepted gw w p is_buy = true
      /\ wire w' = wire w ++ [request]
      /\ book_get (py_round p 4) (active_orders (bot w')) = Some (lower side)
      /\ forall k, (py_round p 4 =? k) = false ->
           book_get k (active_orders (bot w')) = book_get k (active_orders (bot w))
  | (Return false, w') =>
      accepted gw w p is_buy = false /\ w' = with_call request w
  | (Raise e, w') =>
      accepted gw w p is_buy = false /\ w' = w
  end.
Proof.
  intros is_buy request. rewrite place_order_cases. fold is_buy request.
  unfold accepted. fold is_buy.
  destruct (Float.trunc (p * 10000)) as [n|] eqn:En; [|split; reflexivity].
  destruct (cloid_ok gw _); [|split; reflexivity].
  destruct (order_reply gw _); simpl; try (split; reflexivity).
  repeat split.
  - apply dict_get_set_same, FloatRound.rounded4_eqb, rounded_key.
    eapply int_scaled_finite, En.
  - intros k Hk. generalize (active_orders (bot w)). intros d.
    unfold book_get, book_set. induction d as [|[k0 v0] d IH]; simpl.
    + now rewrite Hk.
    + destruct (k0 =? py_round p 4) eqn:E0; simpl.
      * destruct (k0 =? k) eqn:E1; [|reflexivity].
        rewrite (FloatOrder.eqb_trans _ k0 _) in Hk; [discriminate| |exact E1].
        now apply FloatOrder.eqb_sym.
      * destruct (k0 =? k); auto.
Qed.

(** ** RunningBot.on_fill: what a fill can change *)

(** The fields that neither a request nor a write of the order book
    touches. *)
Lemma try_place_fields gw p side (h : exn -> message) w :
  let w' := snd (try_except (place_order gw p side ;; ret tt)
                            (fun e => log (h e)) w) in
  monitor (bot w') = monitor (bot w) /\ thread (bot w') = thread (bot w)
  /\ running (bot w') = running (bot w).
Proof.
  unfold try_except, bind. rewrite place_order_cases.
  destruct (Float.trunc (p * 10000)) as [n|]; [|repeat split].
  destruct (cloid_ok gw _); [|repeat split].
  destruct (order_reply gw _); repeat split.
Qed.

Lemma announced_fields k side w :
  monitor (bot (announced k side w)) = monitor (bot w)
  /\ thread (bot (announced k side w)) = thread (bot w)
  /\ running (bot (announced k side w)) = running (bot w).
Proof. unfold announced. destruct (replacement _ _ _). repeat split. Qed.

Lemma on_fill_fields gw trade w :
  let w' := snd (on_fill gw trade w) in
  monitor (bot w') = monitor (bot w) /\ thread (bot w') = thread (bot w)
  /\ running (bot w') = running (bot w).
Proof.
  destruct (relevant (config (bot w)) trade) eqn:H.
  - destruct (book_get (py_round (price trade) 4) (active_orders (bot w)))
      as [[|c side]|] eqn:Hk.
    + rewrite on_fill_untracked by auto. repeat split.
    + rewrite (on_fill_tracked gw trade w c side H Hk).
      pose proof (announced_fields (py_round (price trade) 4) (String c side) w)
        as (Hm & Ht & Hr).
      destruct (replacement _ _ _) as [np ns].
      destruct (in_range _ np).
      * pose proof (try_place_fields gw np ns Fill_processing_error
                      (announced (py_round (price trade) 4) (String c side) w))
          as (Hm' & Ht' & Hr').
        simpl in *. repeat split; congruence.
      * simpl. auto.
    + rewrite on_fill_untracked by auto. repeat split.
  - rewrite on_fill_irrelevant by assumption. repeat split.
Qed.

Lemma announced_log k side w :
  exists ms, log_queue (bot (announced k side w)) = log_queue (bot w) ++ ms.
Proof.
  unfold announced. destruct (replacement _ _ _) as [np ns]. simpl.
  rewrite <- !app_assoc. eauto.
Qed.

(** X7.  A fill changes the order book, the log and the wire, and nothing else:
    the configuration, the feed and the [running] flag stay as they are,
    the log only gets longer, at most one request is sent, and never more
    levels are tracked after the fill than before it. *)
Theorem on_fill_footprint (gw : Gateway) (trade : Trade) (w : World) :
  let w' := snd (on_fill gw trade w) in
  config (bot w') = config (bot w)
  /\ monitor (bot w') = monitor (bot w)
  /\ thread (bot w') = thread (bot w)
  /\ running (bot w') = running (bot w)
  /\ (exists ms, log_queue (bot w') = log_queue (bot w) ++ ms)
  /\ (wire w' = wire w
      \/ exists is_buy p,
           wire w' = wire w ++ [order_of (config (bot w)) is_buy p])
  /\ (List.length (active_orders (bot w'))
      <= List.length (active_orders (bot w)))%nat.
Proof.
  intros w'. split; [apply on_fill_config|].
  pose proof (on_fill_fields gw trade w) as (Hm & Ht & Hr).
  do 3 (split; [assumption|]). clear Hm Ht Hr. subst w'.
  set (k := py_round (price trade) 4).
  destruct (relevant (config (bot w)) trade) eqn:H.
  - destruct (book_get k (active_orders (bot w))) as [[|c side]|] eqn:Hk.
    + rewrite on_fill_untracked by auto. fold k. simpl.
      split; [rewrite <- app_assoc; eauto|]. split; [auto|].
      apply dict_del_length.
    + rewrite (on_fill_tracked gw trade w c side H Hk). fold k.
      pose proof (announced_log k (String c side) w) as [ms Hms].
      pose proof (announced_book k (String c side) w) as Hb.
      pose proof (announced_wire k (String c side) w) as Hw.
      pose proof (announced_config k (String c side) w) as Hc.
      assert (S (List.length (book_del k (active_orders (bot w))))
              <= List.length (active_orders (bot w)))%nat as Hlen
        by (apply dict_del_shrinks; unfold book_get in Hk; congruence).
      destruct (replacement _ _ _) as [np ns].
      set (a := announced k (String c side) w) in *.
      destruct (in_range _ np).
      * unfold try_except, bind. rewrite place_order_cases.
        destruct (Float.trunc (np * 10000)) as [n|]; simpl.
        2:{ rewrite Hms, Hb, Hw, <- app_assoc. split; [eauto|].
            split; [auto|lia]. }
        destruct (cloid_ok gw _); simpl.
        2:{ rewrite Hms, Hb, Hw, <- app_assoc. split; [eauto|].
            split; [auto|lia]. }
        destruct (order_reply gw _); simpl; rewrite Hms, Hb, Hw, Hc;
          (split; [eauto|]); (split; [eauto|]); try lia.
        pose proof (dict_set_length PrimFloat.eqb (py_round np 4) (lower ns)
                      (book_del k (active_orders (bot w)))) as Hs.
        unfold book_set. lia.
      * simpl. rewrite Hms, Hb, Hw, <- app_assoc. split; [eauto|].
        split; [auto|lia].
    + rewrite on_fill_untracked by auto. fold k. simpl.
      split; [rewrite <- app_assoc; eauto|]. split; [auto|].
      apply dict_del_length.
  - rewrite on_fill_irrelevant by assumption. simpl.
    split; [exists []; now rewrite app_nil_r|]. split; [auto|lia].
Qed.

(** ** RunningBot.start: the requests of a startup *)

(** A loop of placements that ends has sent one request per level, in the
    order of the levels, and has left everything but the order book and the
    wire as it was. *)
Lemma place_grid_wire gw side (levels : list float) w w' :
  for_each levels (fun p => place_order gw p side ;; ret tt) w = (Return tt, w') ->
  wire w' = wire w ++ map (order_of (config (bot w))
                                    (String.eqb (lower side) "buy")) levels
  /\ config (bot w') = config (bot w)
  /\ monitor (bot w') = monitor (bot w)
  /\ thread (bot w') = thread (bot w)
  /\ running (bot w') = running (bot w)
  /\ log_queue (bot w') = log_queue (bot w).
Proof.
  revert w. induction levels as [|p levels IH]; intros w; simpl.
  - unfold ret. intros H. injection H as <-. rewrite app_nil_r. repeat split.
  - unfold bind at 1. unfold bind at 1. rewrite place_order_cases.
    destruct (Float.trunc (p * 10000)) as [n|]; [|discriminate].
    destruct (cloid_ok gw _); [|discriminate].
    destruct (order_reply gw _); unfold ret at 1; intros H; apply IH in H;
      simpl in H; destruct H as (Hw & Hc & Hm & Ht & Hr & Hl);
      rewrite Hw, <- app_assoc; repeat split; assumption.
Qed.

(** X8.  A [start] that returns [True] was called off the main thread on a
    stopped bot, and it has sent, in this order: the cancellation of the open
    orders, the query of the reference price, one request per buy level and
    then one per sell level of the grid built around that price, each list in
    ascending order, and the start of the feed.  The bot is then running with
    its feed, and the log has three more entries. *)
Theorem start_sends_grid (main_thread : bool) (gw : Gateway) (w : World) :
  fst (start main_thread gw w) = Return true ->
  let w' := snd (start main_thread gw w) in
  let cfg := config (bot w) in
  main_thread = false /\ running (bot w) = false
  /\ exists last_close buys sells,
       candles gw = Some last_close
       /\ build cfg last_close = Some (buys, sells)
       /\ wire w' = wire w ++ [Cancel_all; Candles_snapshot]
                      ++ map (order_of cfg true) (sorted buys)
                      ++ map (order_of cfg false) (sorted sells)
                      ++ [Monitor_start]
       /\ log_queue (bot w')
          = log_queue (bot w) ++ [Cancelling_existing_orders;
                                  Last_close_price last_close;
                                  Bot_started_successfully]
       /\ monitor (bot w') = true /\ thread (bot w') = true
       /\ running (bot w') = true.
Proof.
  destruct main_thread; [discriminate|].
  unfold start, bind, get, ret, try_except. simpl.
  destruct (running (bot w)) eqn:Hr; [discriminate|].
  unfold start_steps, cancel_all, get_close_price, bind, log, update, get, ret,
    raise.
  simpl.
  destruct (user_state_ok gw); simpl; [|discriminate].
  destruct (candles gw) as [c|]; simpl; [|discriminate].
  destruct (build (config (bot w)) c) as [[buys sells]|] eqn:Hb; simpl;
    [|discriminate].
  match goal with |- context [for_each ?xs ?body ?x] =>
    change (for_each xs body x)
      with (for_each xs (fun p => place_order gw p "buy" ;; ret tt) x);
    destruct (for_each xs (fun p => place_order gw p "buy" ;; ret tt) x)
      as [[[]|e1] w1] eqn:H1
  end; simpl; [|discriminate].
  match goal with |- context [for_each ?xs ?body ?x] =>
    change (for_each xs body x)
      with (for_each xs (fun p => place_order gw p "sell" ;; ret tt) x);
    destruct (for_each xs (fun p => place_order gw p "sell" ;; ret tt) x)
      as [[[]|e2] w2] eqn:H2
  end; simpl; [|discriminate].
  destruct (monitor_ok gw); simpl; [|discriminate].
  destruct (thread_ok gw); simpl; [|discriminate].
  intros _. do 2 (split; [reflexivity|]). exists c, buys, sells.
  apply place_grid_wire in H1 as (Hw1 & Hc1 & _ & _ & _ & Hl1).
  apply place_grid_wire in H2 as (Hw2 & Hc2 & _ & _ & _ & Hl2).
  simpl in *. rewrite Hc1 in Hw2. simpl in Hw2.
  rewrite Hw2, Hw1, Hl2, Hl1, <- !app_assoc. simpl. repeat split.
  exact Hb.
Qed.

Lemma start_sends_grid_witness :
  let cfg := mk_config 1.00 1.10 0.02 in
  let w := {| bot := new_bot cfg; wire := [] |} in
  let w' := snd (start false (gateway Status_ok 1.05) w) in
  false = false /\ running (bot w) = false
  /\ exists last_close buys sells,
       candles (gateway Status_ok 1.05) = Some last_close
       /\ build cfg last_close = Some (buys, sells)
       /\ wire w' = wire w ++ [Cancel_all; Candles_snapshot]
                      ++ map (order_of cfg true) (sorted buys)
                      ++ map (order_of cfg false) (sorted sells)
                      ++ [Monitor_start]
       /\ log_queue (bot w')
          = log_queue (bot w) ++ [Cancelling_existing_orders;
                                  Last_close_price last_close;
                                  Bot_started_successfully]
       /\ monitor (bot w') = true /\ thread (bot w') = true
       /\ running (bot w') = true.
Proof.
  apply (start_sends_grid false (gateway Status_ok 1.05)
           {| bot := new_bot (mk_config 1.00 1.10 0.02); wire := [] |}).
  vm_compute. reflexivity.
Defined.

(** ** RunningBot.stop: the ways out *)

(** X9.  [stop] on a stopped bot does nothing at all.  On a running bot it logs,
    stops the feed if there is one and cancels the open orders; when both
    calls return the bot is stopped, and a second [stop] then does nothing.
    When one of them raises, [stop] is left with [running] still set, the
    feed possibly stopped and no "Bot stopped" in the log. *)
Theorem stop_outcome (gw : Gateway) (w : World) :
  match stop gw w with
  | (Return _, w') =>
      running (bot w') = false
      /\ (forall gw', stop gw' w' = (Return tt, w'))
      /\ if running (bot w)
         then wire w' = wire w ++ (if monitor (bot w) then [Monitor_stop] else [])
                          ++ [Cancel_all]
              /\ log_queue (bot w') = log_queue (bot w) ++ [Stopping_bot; Bot_stopped]
              /\ user_state_ok gw = true
         else w' = w
  | (Raise e, w') =>
      e = GatewayError
      /\ running (bot w) = true /\ running (bot w') = true
      /\ log_queue (bot w') = log_queue (bot w) ++ [Stopping_bot]
      /\ (user_state_ok gw = false
          \/ (monitor (bot w) = true /\ monitor_stop_ok gw = false
              /\ wire w' = wire w ++ [Monitor_stop]))
  end.
Proof.
  unfold stop, cancel_all, bind, get, log, update, ret, raise. simpl.
  destruct (running (bot w)) eqn:Hr; simpl.
  - destruct (monitor (bot w)) eqn:Hm; simpl.
    + destruct (monitor_stop_ok gw) eqn:Hs; simpl.
      * destruct (user_state_ok gw) eqn:Hu; simpl.
        -- rewrite <- !app_assoc. repeat split.
        -- repeat split; auto.
      * repeat split; auto.
    + destruct (user_state_ok gw) eqn:Hu; simpl.
      * rewrite <- !app_assoc. repeat split.
      * repeat split; auto.
  - rewrite Hr. repeat split.
Qed.

(** ** The registry and the heap *)

Lemma store_same {A} (a : nat) (x b : A) (xs : list A) :
  nth_error xs a = Some b -> nth_error (store a x xs) a = Some x.
Proof.
  revert a. induction xs as [|y xs IH]; intros [|a]; simpl; try discriminate;
    auto.
Qed.

Lemma store_other {A} (a a' : nat) (x : A) (xs : list A) :
  a <> a' -> nth_error (store a x xs) a' = nth_error xs a'.
Proof.
  revert a a'. induction xs as [|y xs IH]; intros [|a] [|a'] H; simpl;
    try reflexivity; try congruence.
  apply IH. congruence.
Qed.

(** Replacing a bot by one with the same [running] flag keeps every bot of
    the heap where it is, with its flag. *)
Lemma store_running (a a' : nat) (x b b' : RunningBot) (xs : list RunningBot) :
  nth_error xs a = Some b -> running x = running b ->
  nth_error xs a' = Some b' ->
  exists b'', nth_error (store a x xs) a' = Some b'' /\ running b'' = running b'.
Proof.
  intros Ha Hx Ha'. destruct (Nat.eq_dec a a') as [<- | Hne].
  - exists x. split; [eapply store_same, Ha|congruence].
  - exists b'. split; [rewrite store_other by assumption; exact Ha'|reflexivity].
Qed.

Lemma registry_get_In (id : string) (a : nat) (d : list (string * nat)) :
  registry_get id d = Some a -> In (id, a) d.
Proof.
  intros H. apply dict_get_In in H as (k0 & H & E).
  apply String.eqb_eq in E. now subst k0.
Qed.

Lemma registry_get_del_same (id : string) (d : list (string * nat)) :
  registry_get id (registry_del id d) = None.
Proof. apply dict_get_del. Qed.

Lemma NoDup_snd_del (k : string) (d : list (string * nat)) :
  NoDup (map snd d) -> NoDup (map snd (registry_del k d)).
Proof.
  induction d as [|[k0 a0] d IH]; simpl; [auto|].
  intros H. inversion H as [|? ? Hn Hd]; subst.
  destruct (String.eqb k0 k); simpl; [auto|].
  constructor; [|auto]. intros Hin. apply Hn.
  apply in_map_iff in Hin as (e & He & Hin). apply in_map_iff.
  exists e. split; [exact He|]. now apply filter_In in Hin.
Qed.

Lemma NoDup_snd_set (k : string) (a : nat) (d : list (string * nat)) :
  NoDup (map snd d) -> ~ In a (map snd d) ->
  NoDup (map snd (registry_set k a d)).
Proof.
  induction d as [|[k0 a0] d IH]; simpl.
  - intros _ _. repeat constructor. auto.
  - intros H Ha. inversion H as [|? ? Hn Hd]; subst.
    destruct (String.eqb k0 k); simpl.
    + constructor; [tauto|assumption].
    + constructor; [|apply IH; tauto].
      intros Hin. apply in_map_iff in Hin as ([k1 a1] & He & Hin).
      simpl in He. subst a1. apply dict_set_In in Hin as [-> | Hin].
      * tauto.
      * apply Hn. apply in_map_iff. exists (k1, a0). auto.
Qed.

Lemma NoDup_snd_inj (k1 k2 : string) (a : nat) (d : list (string * nat)) :
  NoDup (map snd d) -> In (k1, a) d -> In (k2, a) d -> k1 = k2.
Proof.
  induction d as [|[k0 a0] d IH]; simpl; [tauto|].
  intros H. inversion H as [|? ? Hn Hd]; subst.
  intros [E1 | H1] [E2 | H2]; try congruence; auto.
  - exfalso. apply Hn. injection E1 as -> ->. apply in_map_iff.
    exists (k2, a). auto.
  - exfalso. apply Hn. injection E2 as -> ->. apply in_map_iff.
    exists (k1, a). auto.
Qed.

(** ** RunningBot.start and RunningBot.stop, as the registry sees them *)

Lemma start_true_running main_thread gw w :
  fst (start main_thread gw w) = Return true ->
  running (bot (snd (start main_thread gw w))) = true.
Proof.
  destruct main_thread; [discriminate|].
  unfold start, bind, get, ret, try_except. simpl.
  destruct (running (bot w)) eqn:Hr; [discriminate|].
  pose proof (start_steps_outcome gw w Hr) as H.
  destruct (start_steps gw w) as [[b|e] w1]; simpl; [|discriminate].
  intros _. apply H.
Qed.

#[local] Ltac keeps :=
  first [ apply preserves_ret | apply preserves_raise | apply preserves_get
        | apply preserves_int
        | unfold log; apply preserves_update; intros ? ?; assumption
        | match goal with
          | |- preserves _ (if ?b then _ else _) => destruct b; keeps
          | |- preserves _ (match ?x with Some _ => _ | None => _ end) =>
              destruct x; keeps
          end
        | apply place_grid_frame; intros ? ? ?; assumption
        | apply preserves_bind; [keeps|intros ?; keeps] ].

(** [start] never changes the configuration of the bot. *)
Lemma start_config main_thread gw w :
  config (bot (snd (start main_thread gw w))) = config (bot w).
Proof.
  assert (preserves (fun w' => config (bot w') = config (bot w))
            (start main_thread gw)) as H; [|now apply H].
  unfold start. apply preserves_bind; [keeps|intros _].
  apply preserves_bind; [keeps|intros r].
  apply preserves_if; [keeps|]. apply preserves_try; [|intros e; keeps].
  unfold start_steps, cancel_all, get_close_price.
  do 2 (apply preserves_bind; [keeps|intros _]).
  apply preserves_bind; [keeps|intros c].
  apply preserves_bind; [keeps|intros _].
  apply preserves_bind; [keeps|intros cfg].
  destruct (build cfg c) as [[buys sells]|]; keeps.
Qed.

Lemma stop_running gw w :
  match stop gw w with
  | (Return _, w') => running (bot w') = false
  | (Raise _, w') => running (bot w') = true
  end.
Proof.
  unfold stop, cancel_all, bind, get, log, update, ret, raise. simpl.
  destruct (running (bot w)) eqn:Hr; simpl; [|exact Hr].
  destruct (monitor (bot w)); simpl.
  - destruct (monitor_stop_ok gw); simpl; [|exact Hr].
    destruct (user_state_ok gw); simpl; [reflexivity|exact Hr].
  - destruct (user_state_ok gw); simpl; [reflexivity|exact Hr].
Qed.

(** ** start_bot, stop_bot and get_bot_logs *)

Lemma registry_sound_store (p : Process) (a : nat) (x b : RunningBot)
    (reg : list (string * nat)) (calls : list call) :
  registry_sound p ->
  nth_error (heap p) a = Some b -> running x = running b ->
  reg = running_bots p ->
  registry_sound {| heap := store a x (heap p); running_bots := reg;
                    net := calls |}.
Proof.
  intros [Hn Hs] Ha Hx ->. split; [exact Hn|]. simpl. intros id a' Hin.
  destruct (Hs id a' Hin) as (b' & Hb' & Hr').
  destruct (store_running a a' x b b' (heap p) Ha Hx Hb') as (b'' & H1 & H2).
  exists b''. split; [exact H1|congruence].
Qed.

(** X10.  The registry stays sound: whatever [start_bot], [stop_bot] and
    [get_bot_logs] are called with, and whatever fill reaches whatever bot,
    every identifier of the registry still names a bot of its own that is
    running.  In particular a bot that [stop_bot] failed to stop stays
    registered, and one it stopped is registered under no name. *)
Theorem registry_stays_sound
    (main_thread : bool) (gw : Gateway) (bot_id : string) (cfg : Config)
    (a : nat) (trade : Trade) (p : Process) :
  registry_sound p ->
  registry_sound (snd (start_bot main_thread gw bot_id cfg p))
  /\ registry_sound (snd (stop_bot gw bot_id p))
  /\ registry_sound (snd (get_bot_logs bot_id p))
  /\ registry_sound (deliver gw a trade p).
Proof.
  intros Hp. pose proof Hp as [Hn Hs]. repeat split.
  - (* start_bot *)
    unfold start_bot. destruct (connect_ok gw); simpl; [|exact Hn].
    pose proof (start_true_running main_thread gw
                  {| bot := new_bot cfg; wire := net p |}) as Hrun.
    destruct (start main_thread gw _) as [[[|]|e] w]; simpl; trivial.
    apply NoDup_snd_set; [exact Hn|]. intros Hin.
    apply in_map_iff in Hin as ([id a0] & E & Hin). simpl in E. subst a0.
    destruct (Hs id _ Hin) as (b & Hb & _).
    assert (nth_error (heap p) (List.length (heap p)) <> None) as Hb'
      by congruence.
    apply nth_error_Some in Hb'. lia.
  - (* start_bot, the bots *)
    unfold start_bot. destruct (connect_ok gw); simpl; [|exact Hs].
    pose proof (start_true_running main_thread gw
                  {| bot := new_bot cfg; wire := net p |}) as Hrun.
    assert (forall id a0, In (id, a0) (running_bots p) ->
              exists b, nth_error (heap p ++ [bot (snd (start main_thread gw
                          {| bot := new_bot cfg; wire := net p |}))]) a0 = Some b
                        /\ running b = true) as Hold.
    { intros id a0 Hin. destruct (Hs id a0 Hin) as (b & Hb & Hr).
      exists b. split; [|exact Hr]. rewrite nth_error_app1; [exact Hb|].
      apply nth_error_Some. congruence. }
    destruct (start main_thread gw _) as [[[|]|e] w]; simpl in *; trivial.
    intros id a0 Hin. apply dict_set_In in Hin as [-> | Hin]; [|eauto].
    exists (bot w). split; [|now apply Hrun].
    rewrite nth_error_app2 by lia. now rewrite Nat.sub_diag.
  - (* stop_bot *)
    unfold stop_bot.
    destruct (registry_get bot_id _) as [a0|] eqn:Hg; [|exact Hn].
    destruct (nth_error _ a0) as [b|]; [|exact Hn].
    destruct (stop gw _) as [[[]|e] w]; simpl; trivial.
    now apply NoDup_snd_del.
  - unfold stop_bot.
    destruct (registry_get bot_id _) as [a0|] eqn:Hg; [|exact Hs].
    destruct (nth_error _ a0) as [b|] eqn:Hb; [|exact Hs].
    pose proof (stop_running gw {| bot := b; wire := net p |}) as Hrun.
    apply registry_get_In in Hg.
    destruct (Hs bot_id a0 Hg) as (b0 & Hb0 & Hr0).
    assert (b0 = b) by congruence. subst b0.
    destruct (stop gw _) as [[[]|e] w]; simpl in *.
    + intros id a1 Hin. apply dict_del_In in Hin as [Hin Hne]. simpl in Hne.
      destruct (Hs id a1 Hin) as (b1 & Hb1 & Hr1). exists b1.
      split; [|exact Hr1]. rewrite store_other; [exact Hb1|].
      intros <-. pose proof (NoDup_snd_inj _ _ _ _ Hn Hin Hg) as ->.
      rewrite String.eqb_refl in Hne. discriminate.
    + intros id a1 Hin. destruct (Hs id a1 Hin) as (b1 & Hb1 & Hr1).
      destruct (store_running a0 a1 (bot w) b b1 (heap p) Hb
                  ltac:(congruence) Hb1) as (b2 & H1 & H2).
      exists b2. split; [exact H1|congruence].
  - (* get_bot_logs *)
    unfold get_bot_logs.
    destruct (registry_get bot_id _) as [a0|]; [|exact Hn].
    destruct (nth_error _ a0) as [b|]; exact Hn.
  - unfold get_bot_logs.
    destruct (registry_get bot_id _) as [a0|]; [|exact Hs].
    destruct (nth_error _ a0) as [b|] eqn:Hb; [|exact Hs].
    apply (registry_sound_store p a0 (drained b) b _ _ Hp Hb); reflexivity.
  - (* deliver *)
    unfold deliver. destruct (nth_error _ a) as [b|]; exact Hn.
  - unfold deliver. destruct (nth_error _ a) as [b|] eqn:Hb; [|exact Hs].
    apply (registry_sound_store p a _ b _ _ Hp Hb); [|reflexivity].
    apply (on_fill_fields gw trade {| bot := b; wire := net p |}).
Qed.

Lemma registry_stays_sound_witness :
  let cfg := mk_config 1.00 1.10 0.02 in
  let gw := gateway Status_ok 1.05 in
  let p := {| heap := [bot (tracking cfg [(1.02, "buy"%string)])];
              running_bots := [("bot-1"%string, 0%nat)]; net := [] |} in
  registry_sound (snd (start_bot false gw "bot-1" cfg p))
  /\ registry_sound (snd (stop_bot gw "bot-1" p))
  /\ registry_sound (snd (get_bot_logs "bot-1" p))
  /\ registry_sound (deliver gw 0 (fill 1.02) p).
Proof.
  apply (registry_stays_sound false (gateway Status_ok 1.05) "bot-1"
           (mk_config 1.00 1.10 0.02) 0 (fill 1.02)
           {| heap := [bot (tracking (mk_config 1.00 1.10 0.02)
                                     [(1.02, "buy"%string)])];
              running_bots := [("bot-1"%string, 0%nat)]; net := [] |}).
  split.
  - repeat constructor. simpl. tauto.
  - intros id a [E | []]. injection E as <- <-. eexists. split; reflexivity.
Defined.

(** X11.  [stop_bot] ends in one of three ways.  It returns [False], and changes
    nothing, exactly when the identifier is not registered.  It returns
    [True] when [stop] returned: the identifier is then free, its bot is
    stopped, and every other identifier names the bot it named.  It raises
    when [stop] raised: the registry is then as it was, the bot still under
    its identifier. *)
Theorem stop_bot_outcome (gw : Gateway) (bot_id : string) (p : Process) :
  registry_sound p ->
  match stop_bot gw bot_id p with
  | (Return true, p') =>
      registry_get bot_id (running_bots p') = None
      /\ (forall id, id <> bot_id ->
            registry_get id (running_bots p') = registry_get id (running_bots p))
      /\ exists a b', registry_get bot_id (running_bots p) = Some a
                      /\ nth_error (heap p') a = Some b'
                      /\ running b' = false
  | (Return false, p') =>
      registry_get bot_id (running_bots p) = None /\ p' = p
  | (Raise e, p') =>
      registry_get bot_id (running_bots p) <> None
      /\ running_bots p' = running_bots p
  end.
Proof.
  intros [Hn Hs]. unfold stop_bot.
  destruct (registry_get bot_id _) as [a|] eqn:Hg; [|split; reflexivity].
  destruct (Hs bot_id a (registry_get_In _ _ _ Hg)) as (b & Hb & Hr).
  rewrite Hb.
  pose proof (stop_running gw {| bot := b; wire := net p |}) as Hrun.
  destruct (stop gw _) as [[[]|e] w]; simpl in *.
  - split; [apply registry_get_del_same|]. split.
    + intros id Hne. now apply sdict_get_del_other.
    + exists a, (bot w). repeat split; trivial. eapply store_same, Hb.
  - split; [congruence|reflexivity].
Qed.

Lemma stop_bot_outcome_witness :
  let cfg := mk_config 1.00 1.10 0.02 in
  let p := {| heap := [bot (tracking cfg [(1.02, "buy"%string)])];
              running_bots := [("bot-1"%string, 0%nat)]; net := [] |} in
  match stop_bot (gateway Status_ok 1.05) "bot-1" p with
  | (Return true, p') =>
      registry_get "bot-1" (running_bots p') = None
      /\ (forall id, id <> "bot-1"%string ->
            registry_get id (running_bots p') = registry_get id (running_bots p))
      /\ exists a b', registry_get "bot-1" (running_bots p) = Some a
                      /\ nth_error (heap p') a = Some b'
                      /\ running b' = false
  | (Return false, p') =>
      registry_get "bot-1" (running_bots p) = None /\ p' = p
  | (Raise e, p') =>
      registry_get "bot-1" (running_bots p) <> None
      /\ running_bots p' = running_bots p
  end.
Proof.
  apply (stop_bot_outcome (gateway Status_ok 1.05) "bot-1"
           {| heap := [bot (tracking (mk_config 1.00 1.10 0.02)
                                     [(1.02, "buy"%string)])];
              running_bots := [("bot-1"%string, 0%nat)]; net := [] |}).
  split.
  - repeat constructor. simpl. tauto.
  - intros id a [E | []]. injection E as <- <-. eexists. split; reflexivity.
Defined.

(** X12.  [start_bot] builds a bot of its own on every call that gets as far as
    [RunningBot(config)]: no bot that exists is touched, and no other
    identifier is.  When it returns [True] the identifier names the new bot,
    which is running with the configuration given; when it returns [False],
    for whatever reason, the registry is as it was. *)
Theorem start_bot_outcome
    (main_thread : bool) (gw : Gateway) (bot_id : string) (cfg : Config)
    (p : Process) :
  let r := start_bot main_thread gw bot_id cfg p in
  (forall a b, nth_error (heap p) a = Some b ->
               nth_error (heap (snd r)) a = Some b)
  /\ (forall id, id <> bot_id ->
        registry_get id (running_bots (snd r)) = registry_get id (running_bots p))
  /\ if fst r
     then registry_get bot_id (running_bots (snd r)) = Some (List.length (heap p))
          /\ exists b, nth_error (heap (snd r)) (List.length (heap p)) = Some b
                       /\ running b = true /\ config b = cfg
     else running_bots (snd r) = running_bots p.
Proof.
  unfold start_bot. destruct (connect_ok gw); simpl; [|auto].
  pose proof (start_true_running main_thread gw
                {| bot := new_bot cfg; wire := net p |}) as Hrun.
  pose proof (start_config main_thread gw
                {| bot := new_bot cfg; wire := net p |}) as Hcfg.
  assert (forall (x : RunningBot) a b, nth_error (heap p) a = Some b ->
            nth_error (heap p ++ [x]) a = Some b) as Hold.
  { intros x a b Hb. rewrite nth_error_app1; [exact Hb|].
    apply nth_error_Some. congruence. }
  destruct (start main_thread gw _) as [[[|]|e] w]; simpl in *; auto.
  split; [auto|]. split; [|split].
  - intros id Hne. now apply sdict_get_set_other.
  - apply sdict_get_set_same.
  - exists (bot w). rewrite nth_error_app2 by lia. rewrite Nat.sub_diag.
    auto.
Qed.

(** X13.  [get_bot_logs] hands out each entry of the log once: it returns the
    queue of the registered bot, oldest entry first, and leaves it empty, so
    that a second call returns nothing; the registry, the wire and every
    other bot are as before.  For an identifier that is not registered it
    returns the empty list and changes nothing. *)
Theorem get_bot_logs_reads_once (bot_id : string) (p : Process) :
  registry_sound p ->
  let logs := fst (get_bot_logs bot_id p) in
  let p' := snd (get_bot_logs bot_id p) in
  running_bots p' = running_bots p /\ net p' = net p
  /\ fst (get_bot_logs bot_id p') = []
  /\ match registry_get bot_id (running_bots p) with
     | None => logs = [] /\ p' = p
     | Some a =>
         (exists b, nth_error (heap p) a = Some b /\ logs = log_queue b
                    /\ nth_error (heap p') a = Some (drained b))
         /\ forall a', a' <> a -> nth_error (heap p') a' = nth_error (heap p) a'
     end.
Proof.
  intros [Hn Hs]. unfold get_bot_logs.
  destruct (registry_get bot_id (running_bots p)) as [a|] eqn:Hg.
  - destruct (Hs bot_id a (registry_get_In _ _ _ Hg)) as (b & Hb & Hr).
    rewrite Hb. simpl. rewrite Hg. rewrite (store_same a (drained b) b _ Hb).
    repeat split.
    + exists b. repeat split.
    + intros a' Hne. apply store_other. congruence.
  - simpl. rewrite Hg. repeat split.
Qed.

Lemma get_bot_logs_reads_once_witness :
  let b := {| config := mk_config 1.00 1.10 0.02; active_orders := [];
              monitor := true; thread := true; running := true;
              log_queue := [Cancelling_existing_orders;
                            Bot_started_successfully] |} in
  let p := {| heap := [b]; running_bots := [("bot-1"%string, 0%nat)];
              net := [] |} in
  let logs := fst (get_bot_logs "bot-1" p) in
  let p' := snd (get_bot_logs "bot-1" p) in
  running_bots p' = running_bots p /\ net p' = net p
  /\ fst (get_bot_logs "bot-1" p') = []
  /\ match registry_get "bot-1" (running_bots p) with
     | None => logs = [] /\ p' = p
     | Some a =>
         (exists b, nth_error (heap p) a = Some b /\ logs = log_queue b
                    /\ nth_error (heap p') a = Some (drained b))
         /\ forall a', a' <> a -> nth_error (heap p') a' = nth_error (heap p) a'
     end.
Proof.
  apply (get_bot_logs_reads_once "bot-1"
           {| heap := [{| config := mk_config 1.00 1.10 0.02;
                          active_orders := []; monitor := true; thread := true;
                          running := true;
                          log_queue := [Cancelling_existing_orders;
                                        Bot_started_successfully] |}];
              running_bots := [("bot-1"%string, 0%nat)]; net := [] |}).
  split.
  - repeat constructor. simpl. tauto.
  - intros id a [E | []]. injection E as <- <-. eexists. split; reflexivity.
Defined.

(** ** ExchangeClient.cancel_all, order by order *)

Lemma cancel_loop_spec (d : Desk) (orders : list (option string)) :
  let '(r, sent, lines) := cancel_loop d orders in
  lines = map (fun c => if cancel_ok d c then Cancelled_order c
                        else Failed_to_cancel c) sent
  /\ Forall (fun c => from_str_ok d c = true) sent
  /\ match r with
     | Return _ => sent = identifiers orders
     | Raise e =>
         e = TypeError
         /\ exists c rest, identifiers orders = sent ++ c :: rest
                           /\ from_str_ok d c = false
     end.
Proof.
  induction orders as [|[[|c0 c]|] orders IH]; simpl; auto.
  destruct (from_str_ok d (String c0 c)) eqn:Hok.
  - destruct (cancel_loop d orders) as [[r sent] lines].
    destruct IH as (Hl & Hf & Hr). split; [now rewrite Hl|].
    split; [constructor; assumption|].
    destruct r as [[]|e].
    + now rewrite Hr.
    + destruct Hr as (-> & c1 & rest & Hi & Hc). split; [reflexivity|].
      exists c1, rest. split; [now rewrite Hi|exact Hc].
  - repeat split; auto. exists (String c0 c), (identifiers orders). auto.
Qed.

(** X14.  [cancel_all] asks for the cancellation of every open order that carries
    a client identifier, in the order of the account state, whether or not
    the cancellations before it went through: a cancellation that raises is
    logged and the loop goes on.  An identifier that [Cloid.from_str] refuses
    is not guarded: [cancel_all] raises there, and no order after it is
    cancelled.  A state without "orders" makes it return at once, and a
    query that raises makes it raise before any cancellation. *)
Theorem cancel_all_orders_outcome (d : Desk) :
  let '(r, sent, lines) := cancel_all_orders d in
  lines = map (fun c => if cancel_ok d c then Cancelled_order c
                        else Failed_to_cancel c) sent
  /\ Forall (fun c => from_str_ok d c = true) sent
  /\ match user_state d with
     | None => r = Raise GatewayError /\ sent = []
     | Some None => r = Return tt /\ sent = []
     | Some (Some orders) =>
         match r with
         | Return _ => sent = identifiers orders
         | Raise e =>
             e = TypeError
             /\ exists c rest, identifiers orders = sent ++ c :: rest
                               /\ from_str_ok d c = false
         end
     end.
Proof.
  unfold cancel_all_orders.
  destruct (user_state d) as [[orders|]|]; simpl; auto.
  apply cancel_loop_spec.
Qed.

(** ** The dashboard *)




Lemma submit_saved edit_bot inputs bots bots' :
  App.submit edit_bot inputs bots = App.Saved bots' ->
  let b := App.new_bot inputs in
  blank (App.bot_name b) = false /\ blank (App.token_symbol b) = false
  /\ blank (App.wallet_address b) = false /\ blank (App.private_key b) = false
  /\ (App.max_price b <=? App.min_price b) = false
  /\ bots' = App.store_set (App.bot_name b) b
               match edit_bot with
               | Some old_name =>
                   if negb (String.eqb old_name (App.bot_name b))
                   then App.store_del old_name bots else bots
               | None => bots
               end.
Proof.
  intros H. cbv zeta. unfold App.submit in H.
  remember (App.new_bot inputs) as b eqn:Eb.
  destruct edit_bot as [old|];
    [destruct (App.store_get old bots) as [e|]; [|discriminate]|];
    destruct (blank (App.bot_name b)), (blank (App.token_symbol b)),
      (blank (App.wallet_address b)), (blank (App.private_key b));
    simpl in H; try discriminate;
    destruct (App.max_price b <=? App.min_price b); try discriminate;
    injection H as <-; rewrite ?andb_true_r; repeat split.
Qed.



(** X16.  When "Save Bot" saves, the entry is found under the name typed, with
    the token symbol in upper case, whether or not that name was taken: an
    entry of the same name is overwritten.  In edit mode with a name that
    differs from the one under edit, the old name is gone.  Every other
    entry is as it was. *)
Theorem submit_saves
    (edit_bot : option string) (inputs : App.Bot) (bots bots' : App.Store) :
  App.submit edit_bot inputs bots = App.Saved bots' ->
  let b := App.new_bot inputs in
  App.store_get (App.bot_name inputs) bots' = Some b
  /\ App.token_symbol b = upper (App.token_symbol inputs)
  /\ (forall old, edit_bot = Some old -> old <> App.bot_name inputs ->
        App.store_get old bots <> None /\ App.store_get old bots' = None)
  /\ (forall name, name <> App.bot_name inputs -> edit_bot <> Some name ->
        App.store_get name bots' = App.store_get name bots).
Proof.
  intros H b. pose proof H as Hs.
  apply submit_saved in Hs as (_ & _ & _ & _ & _ & ->).
  fold b. change (App.bot_name b) with (App.bot_name inputs).
  split; [apply sdict_get_set_same|]. split; [reflexivity|]. split.
  - intros old -> Hne. split.
    + unfold App.submit in H. destruct (App.store_get old bots); congruence.
    + unfold App.store_get, App.store_set.
      rewrite sdict_get_set_other by assumption.
      apply String.eqb_neq in Hne. rewrite Hne. simpl. apply dict_get_del.
  - intros name Hne Hed. unfold App.store_get, App.store_set.
    rewrite sdict_get_set_other by assumption.
    destruct edit_bot as [old|]; [|reflexivity].
    destruct (negb _); [|reflexivity].
    apply sdict_get_del_other. congruence.
Qed.

Lemma submit_saves_witness :
  let old := {| App.bot_name := "grid-1"; App.token_symbol := "ETH";
                App.wallet_address := "0xabc"; App.private_key := "0x01";
                App.min_price := 1.00; App.max_price := 1.10;
                App.bin_step := 0.02; App.order_size := 1 |} in
  let inputs := {| App.bot_name := "grid-2"; App.token_symbol := "btc";
                   App.wallet_address := "0xabc"; App.private_key := "0x01";
                   App.min_price := 1.00; App.max_price := 1.10;
                   App.bin_step := 0.02; App.order_size := 1 |} in
  let bots' := [("grid-2"%string, App.new_bot inputs)] in
  App.store_get "grid-2" bots' = Some (App.new_bot inputs)
  /\ App.token_symbol (App.new_bot inputs) = upper "btc"
  /\ (forall o, Some "grid-1"%string = Some o -> o <> "grid-2"%string ->
        App.store_get o [("grid-1"%string, old)] <> None
        /\ App.store_get o bots' = None)
  /\ (forall name, name <> "grid-2"%string -> Some "grid-1"%string <> Some name ->
        App.store_get name bots' = App.store_get name [("grid-1"%string, old)]).
Proof.
  apply (submit_saves (Some "grid-1"%string)
           {| App.bot_name := "grid-2"; App.token_symbol := "btc";
              App.wallet_address := "0xabc"; App.private_key := "0x01";
              App.min_price := 1.00; App.max_price := 1.10;
              App.bin_step := 0.02; App.order_size := 1 |}
           [("grid-1"%string,
             {| App.bot_name := "grid-1"; App.token_symbol := "ETH";
                App.wallet_address := "0xabc"; App.private_key := "0x01";
                App.min_price := 1.00; App.max_price := 1.10;
                App.bin_step := 0.02; App.order_size := 1 |})]).
  vm_compute. reflexivity.
Defined.

Lemma shown_running_iff (name : string) (p : Process) :
  App.shown_running name p = true
  <-> registry_get name (running_bots p) <> None.
Proof.
  unfold App.shown_running. destruct (registry_get name _); split; congruence.
Qed.

(** X17.  "Start" never replaces a running bot.  The button is there only for a
    bot of the store that is not shown as running; once pressed, the bot is
    shown as running exactly when [start_bot] returned [True], it then runs
    with the configuration of its entry, and every bot that was registered
    is still registered, the same bot under the same name. *)
Theorem click_start_outcome
    (main_thread : bool) (gw : Gateway) (name : string) (bots : App.Store)
    (p : Process) (ok : bool) (p' : Process) :
  App.click_start main_thread gw name bots p = Some (ok, p') ->
  App.shown_running name p = false
  /\ App.shown_running name p' = ok
  /\ (forall id a, registry_get id (running_bots p) = Some a ->
        registry_get id (running_bots p') = Some a)
  /\ (ok = true ->
      exists e b, App.store_get name bots = Some e
                  /\ registry_get name (running_bots p')
                     = Some (List.length (heap p))
                  /\ nth_error (heap p') (List.length (heap p)) = Some b
                  /\ running b = true
                  /\ config b = App.config_of e).
Proof.
  unfold App.click_start.
  destruct (App.store_get name bots) as [e|] eqn:He; [|discriminate].
  destruct (App.shown_running name p) eqn:Hsh; [discriminate|].
  intros H. injection H as H.
  assert (registry_get name (running_bots p) = None) as Hnone.
  { unfold App.shown_running in Hsh.
    destruct (registry_get name _); [discriminate|reflexivity]. }
  revert H. unfold start_bot. destruct (connect_ok gw); simpl.
  2:{ intros H. injection H as <- <-. rewrite Hsh. repeat split; auto.
      discriminate. }
  pose proof (start_true_running main_thread gw
                {| bot := new_bot (App.config_of e); wire := net p |}) as Hrun.
  pose proof (start_config main_thread gw
                {| bot := new_bot (App.config_of e); wire := net p |}) as Hcfg.
  destruct (start main_thread gw _) as [[[|]|ex] w]; simpl in *;
    intros H; injection H as <- <-; simpl;
    try (unfold App.shown_running; simpl; rewrite Hnone; repeat split; auto;
         discriminate).
  split; [reflexivity|]. split.
  { unfold App.shown_running. simpl.
    unfold registry_get, registry_set. now rewrite sdict_get_set_same. }
  split.
  - intros id a Ha. unfold registry_get, registry_set.
    rewrite sdict_get_set_other; [exact Ha|]. intros ->.
    unfold registry_get in *. congruence.
  - intros _. exists e, (bot w). split; [reflexivity|].
    split; [apply sdict_get_set_same|].
    rewrite nth_error_app2 by lia. rewrite Nat.sub_diag. auto.
Qed.

Lemma click_start_outcome_witness :
  let e := {| App.bot_name := "grid-1"; App.token_symbol := "ETH";
              App.wallet_address := "0xabc"; App.private_key := "0x01";
              App.min_price := 1.00; App.max_price := 1.10;
              App.bin_step := 0.02; App.order_size := 1 |} in
  let bots := [("grid-1"%string, e)] in
  let p := {| heap := []; running_bots := []; net := [] |} in
  let p' := snd (start_bot false (gateway Status_ok 1.05) "grid-1"
                           (App.config_of e) p) in
  App.shown_running "grid-1" p = false
  /\ App.shown_running "grid-1" p' = true
  /\ (forall id a, registry_get id (running_bots p) = Some a ->
        registry_get id (running_bots p') = Some a)
  /\ (true = true ->
      exists e b, App.store_get "grid-1" bots = Some e
                  /\ registry_get "grid-1" (running_bots p')
                     = Some (List.length (heap p))
                  /\ nth_error (heap p') (List.length (heap p)) = Some b
                  /\ running b = true
                  /\ config b = App.config_of e).
Proof.
  apply (click_start_outcome false (gateway Status_ok 1.05) "grid-1"
           [("grid-1"%string,
             {| App.bot_name := "grid-1"; App.token_symbol := "ETH";
                App.wallet_address := "0xabc"; App.private_key := "0x01";
                App.min_price := 1.00; App.max_price := 1.10;
                App.bin_step := 0.02; App.order_size := 1 |})]
           {| heap := []; running_bots := []; net := [] |}).
  vm_compute. reflexivity.
Defined.

(** What [stop_bot] does to the registry. *)
Lemma stop_bot_registry (gw : Gateway) (bot_id : string) (p : Process) :
  registry_sound p ->
  match stop_bot gw bot_id p with
  | (Return true, p') =>
      running_bots p' = registry_del bot_id (running_bots p)
  | (Return false, p') =>
      registry_get bot_id (running_bots p) = None /\ p' = p
  | (Raise e, p') =>
      registry_get bot_id (running_bots p) <> None
      /\ running_bots p' = running_bots p
  end.
Proof.
  intros [Hn Hs]. unfold stop_bot.
  destruct (registry_get bot_id _) as [a|] eqn:Hg; [|split; reflexivity].
  destruct (Hs bot_id a (registry_get_In _ _ _ Hg)) as (b & Hb & Hr).
  rewrite Hb. destruct (stop gw _) as [[[]|e] w]; simpl.
  - reflexivity.
  - split; [congruence|reflexivity].
Qed.

(** X18.  "Delete" on a bot of the store.  When the handler gets to its end the
    entry is gone and the bot is not shown as running, every other entry and
    every other registered bot being as before.  When [stop_bot] raises, the
    handler is left before the entry is deleted: the store is not written
    and the bot is still shown as running. *)
Theorem click_delete_outcome
    (gw : Gateway) (name : string) (bots : App.Store) (p : Process) :
  registry_sound p ->
  match App.click_delete gw name bots p with
  | None => App.store_get name bots = None
  | Some (Return bots', p') =>
      App.store_get name bots' = None
      /\ App.shown_running name p' = false
      /\ forall other, other <> name ->
           App.store_get other bots' = App.store_get other bots
           /\ App.shown_running other p' = App.shown_running other p
  | Some (Raise e, p') =>
      App.shown_running name p = true /\ App.shown_running name p' = true
  end.
Proof.
  intros Hp. unfold App.click_delete.
  destruct (App.store_get name bots) as [e|]; [|reflexivity].
  destruct (App.shown_running name p) eqn:Hsh.
  - pose proof (stop_bot_registry gw name p Hp) as H.
    destruct (stop_bot gw name p) as [[[|]|ex] p'].
    + split; [apply dict_get_del|]. unfold App.shown_running. rewrite H.
      rewrite registry_get_del_same. split; [reflexivity|].
      intros other Hne. split; [now apply sdict_get_del_other|].
      unfold registry_get, registry_del.
      now rewrite sdict_get_del_other.
    + destruct H as (Hg & ->). apply shown_running_iff in Hsh. contradiction.
    + destruct H as (_ & Hr). split; [reflexivity|].
      unfold App.shown_running in *. now rewrite Hr.
  - split; [apply dict_get_del|]. split; [exact Hsh|].
    intros other Hne. split; [now apply sdict_get_del_other|reflexivity].
Qed.

Lemma click_delete_outcome_witness :
  let e := {| App.bot_name := "grid-1"; App.token_symbol := "ETH";
              App.wallet_address := "0xabc"; App.private_key := "0x01";
              App.min_price := 1.00; App.max_price := 1.10;
              App.bin_step := 0.02; App.order_size := 1 |} in
  let p := {| heap := [bot (tracking (App.config_of e) [])];
              running_bots := [("grid-1"%string, 0%nat)]; net := [] |} in
  match App.click_delete (gateway Status_ok 1.05) "grid-1"
                         [("grid-1"%string, e)] p with
  | None => App.store_get "grid-1" [("grid-1"%string, e)] = None
  | Some (Return bots', p') =>
      App.store_get "grid-1" bots' = None
      /\ App.shown_running "grid-1" p' = false
      /\ forall other, other <> "grid-1"%string ->
           App.store_get other bots' = App.store_get other [("grid-1"%string, e)]
           /\ App.shown_running other p' = App.shown_running other p
  | Some (Raise e, p') =>
      App.shown_running "grid-1" p = true /\ App.shown_running "grid-1" p' = true
  end.
Proof.
  apply (click_delete_outcome (gateway Status_ok 1.05) "grid-1"
           [("grid-1"%string,
             {| App.bot_name := "grid-1"; App.token_symbol := "ETH";
                App.wallet_address := "0xabc"; App.private_key := "0x01";
                App.min_price := 1.00; App.max_price := 1.10;
                App.bin_step := 0.02; App.order_size := 1 |})]
           {| heap := [bot (tracking
                              (App.config_of
                                 {| App.bot_name := "grid-1";
                                    App.token_symbol := "ETH";
                                    App.wallet_address := "0xabc";
                                    App.private_key := "0x01";
                                    App.min_price := 1.00;
                                    App.max_price := 1.10;
                                    App.bin_step := 0.02;
                                    App.order_size := 1 |}) [])];
              running_bots := [("grid-1"%string, 0%nat)]; net := [] |}).
  split.
  - repeat constructor. simpl. tauto.
  - intros id a [E | []]. injection E as <- <-. eexists. split; reflexivity.
Defined.



